(** * memvid-cf: the semantic retrieval core

    A shallow embedding of [src/utils.ts] ([cosineSimilarity],
    [generateQRCodeSVG]) and of the two POST handlers of [src/worker.tsx]
    ([/encode] and [/query]), together with the [entries] table of
    [migrations/0001_initial.sql].

    Modelling choices.
    - A JavaScript [number] is an IEEE 754 binary64 value, which is exactly
      Rocq's primitive [float]: [+], [*], [/], [Math.sqrt], [<] and [>] are
      the primitive operations, [-Infinity] is [neg_infinity], and NaN is
      [nan].  Nothing is idealised to real arithmetic.
    - [number[]] is [list float]; an indexed read [b[i]] is a list lookup
      whose out-of-range result [undefined] becomes NaN under [*].
    - The R2 bucket is a finite map from keys to bodies, the D1 table a list
      of rows in listing order.  The [embedding] column is held as the array
      that [JSON.parse] returns for its text; what [JSON.stringify] loses on
      the way in ([-0], NaN and the infinities) is lost at the insert.
    - The handlers run in a state-and-exception monad over a [World] that
      carries both stores, the behaviour of the external collaborators and a
      trace of every collaborator call and console line. *)

From Stdlib Require Import Floats ZArith List Lia Bool.
From stdpp Require Import base option list gmap strings.
Import ListNotations.

Local Open Scope float_scope.
Local Open Scope list_scope.
Local Open Scope stdpp_scope.

(** ** JavaScript arrays of numbers *)

Module Js.

(** [x === x]: false exactly for NaN. *)
Definition is_number (x : float) : bool := PrimFloat.eqb x x.

(** A signed zero, [+0] or [-0]. *)
Definition is_zero (x : float) : bool := PrimFloat.eqb x 0.

(** The values a sum of products with a zero vector can take. *)
Definition zero_or_nan (x : float) : Prop := x = 0 \/ x = -0 \/ x = nan.

(** [Array.prototype.reduce(callback, initialValue)]: the callback receives
    the accumulator, the element and its index. *)
Fixpoint reduce_from {A B : Type} (callback : B -> A -> nat -> B)
    (i : nat) (arr : list A) (acc : B) : B :=
  match arr with
  | [] => acc
  | x :: rest => reduce_from callback (S i) rest (callback acc x i)
  end.

Definition reduce {A B : Type} (callback : B -> A -> nat -> B)
    (arr : list A) (initialValue : B) : B :=
  reduce_from callback 0 arr initialValue.

(** [ToNumber] of an indexed read: [undefined] converts to NaN. *)
Definition ToNumber (v : option float) : float :=
  match v with
  | Some x => x
  | None => nan
  end.

End Js.

(** ** [src/utils.ts] *)

(** [cosineSimilarity(a, b)]: three reductions, a square root each for the
    two magnitudes, one division. *)
Definition cosineSimilarity (a b : list float) : float :=
  let dot := Js.reduce (fun sum ai i => sum + ai * Js.ToNumber (b !! i)) a 0 in
  let magA := sqrt (Js.reduce (fun sum ai _ => sum + ai * ai) a 0) in
  let magB := sqrt (Js.reduce (fun sum bi _ => sum + bi * bi) b 0) in
  dot / (magA * magB).

(** ** The cosine formula of the specification

    [dot(a,b) / (‖a‖ · ‖b‖)], written from the specification's words and
    evaluated in binary64 from left to right. *)

Module Cosine.

(** [dot a b]: the sum of the products of corresponding entries. *)
Definition dot (a b : list float) : float :=
  fold_left (fun s p => s + p.1 * p.2) (zip a b) 0.

(** [norm a]: the Euclidean norm, the square root of the sum of squares. *)
Definition norm (a : list float) : float :=
  sqrt (fold_left (fun s x => s + x * x) a 0).

Definition cosine (a b : list float) : float :=
  dot a b / (norm a * norm b).

(** A zero vector: every entry is a signed zero, [+0] or [-0]. *)
Definition zero_vector (v : list float) : Prop :=
  Forall (fun x => Js.is_zero x = true) v.

End Cosine.

(** ** The stores and the collaborators *)

(** A row of the [entries] table ([migrations/0001_initial.sql]):
    [id TEXT PRIMARY KEY, text TEXT NOT NULL, embedding TEXT NOT NULL,
    created_at DATETIME DEFAULT CURRENT_TIMESTAMP]. *)
Record Row := mkRow {
  row_id : string;
  row_text : string;
  row_embedding : list float;
  row_created_at : string
}.

(** What the handlers write to the console. *)
Inductive LogLine :=
| EncodeEmbeddingResponse (embeddingResp : list (list float))
| EncodeEmbeddingLength (n : nat)
| EncodeError
| SearchingFor (prompt : string)
| QueryEmbeddingResponse (queryResp : list (list float))
| QueryEmbeddingLength (n : nat)
| FoundEntries (n : nat)
| ScoreFor (id : string) (score : float)
| BestMatch (id : option string) (bestScore : float)
| QrNotFound (id : string)
| QueryError.

(** What the handlers ask of the outside, in the order they ask it. *)
Inductive Event :=
| Render (content : string)
| BucketPut (key body : string)
| BucketGet (key : string)
| AiRun (input : string)
| DbInsert (id text : string) (embedding : list float)
| DbSelectAll
| Console (line : LogLine).

Record World := mkWorld {
  (** the R2 bucket [QR_BUCKET]: key to body *)
  QR_BUCKET : gmap string string;
  (** the D1 table [entries], in the order [SELECT *] lists it *)
  DB : list Row;
  (** every collaborator call and console line so far, oldest first *)
  trace : list Event;
  (** [AI.run('@cf/baai/bge-base-en-v1.5', {text})]: the [data] field of the
      response, one embedding per input text ([number[][]]), or [None] when
      the call rejects *)
  AI : string -> option (list (list float));
  (** [new QRCode({content, ...}).svg()], or [None] when the library throws *)
  QRCode_svg : string -> option string;
  (** whether calls to the bucket and to the database go through *)
  r2_up : bool;
  d1_up : bool;
  (** SQLite's [CURRENT_TIMESTAMP] *)
  CURRENT_TIMESTAMP : string
}.

Definition set_trace (w : World) (t : list Event) : World :=
  mkWorld (QR_BUCKET w) (DB w) t (AI w) (QRCode_svg w) (r2_up w) (d1_up w)
          (CURRENT_TIMESTAMP w).

Definition set_QR_BUCKET (w : World) (b : gmap string string) : World :=
  mkWorld b (DB w) (trace w) (AI w) (QRCode_svg w) (r2_up w) (d1_up w)
          (CURRENT_TIMESTAMP w).

Definition set_DB (w : World) (rows : list Row) : World :=
  mkWorld (QR_BUCKET w) rows (trace w) (AI w) (QRCode_svg w) (r2_up w) (d1_up w)
          (CURRENT_TIMESTAMP w).

(** ** The handler monad: state and exceptions *)

Inductive Outcome (A : Type) :=
| Return (a : A)
| Throw.
Arguments Return {A} a.
Arguments Throw {A}.

Definition Eff (A : Type) : Type := World -> Outcome A * World.

#[global] Instance Eff_ret : MRet Eff := fun A a w => (Return a, w).

#[global] Instance Eff_bind : MBind Eff := fun A B f m w =>
  match m w with
  | (Return a, w') => f a w'
  | (Throw, w') => (Throw, w')
  end.

(** [try { body } catch (error) { handler }]: the handler runs in the world
    the body left behind. *)
Definition try_catch {A : Type} (body handler : Eff A) : Eff A := fun w =>
  match body w with
  | (Return a, w') => (Return a, w')
  | (Throw, w') => handler w'
  end.

Definition emit (e : Event) : Eff unit := fun w =>
  (Return tt, set_trace w (trace w ++ [e])).

Definition console_log (line : LogLine) : Eff unit := emit (Console line).

(** [await c.env.QR_BUCKET.put(key, body)] *)
Definition QR_BUCKET_put (key body : string) : Eff unit := fun w =>
  let w := set_trace w (trace w ++ [BucketPut key body]) in
  if r2_up w then (Return tt, set_QR_BUCKET w (<[key := body]> (QR_BUCKET w)))
  else (Throw, w).

(** [await c.env.QR_BUCKET.get(key)]: the object's body, or [null] *)
Definition QR_BUCKET_get (key : string) : Eff (option string) := fun w =>
  let w := set_trace w (trace w ++ [BucketGet key]) in
  if r2_up w then (Return (QR_BUCKET w !! key), w) else (Throw, w).

(** [await c.env.AI.run('@cf/baai/bge-base-en-v1.5', { text })] *)
Definition AI_run (input : string) : Eff (list (list float)) := fun w =>
  let w := set_trace w (trace w ++ [AiRun input]) in
  match AI w input with
  | Some data => (Return data, w)
  | None => (Throw, w)
  end.

(** The [PRIMARY KEY] constraint on [id]. *)
Definition primary_key_taken (id : string) (rows : list Row) : bool :=
  existsb (fun r => String.eqb (row_id r) id) rows.

(** [JSON.parse(JSON.stringify(x))] on one entry of the array.  A finite
    number is read back as it was, except that [-0] is written as [0]; NaN
    and the infinities are written as [null], which [*], the only operation
    [cosineSimilarity] applies to an entry, converts to [+0]. *)
Definition JSON_roundtrip (x : float) : float :=
  if is_finite x && negb (Js.is_zero x) then x else 0.

(** [INSERT INTO entries (id, text, embedding) VALUES (?, ?, ?)] bound to
    [id], [text] and [JSON.stringify(embedding)] *)
Definition DB_insert (id text : string) (embedding : list float) : Eff unit :=
  fun w =>
  let w := set_trace w (trace w ++ [DbInsert id text embedding]) in
  if d1_up w && negb (primary_key_taken id (DB w))
  then (Return tt,
        set_DB w (DB w ++ [mkRow id text (map JSON_roundtrip embedding)
                                 (CURRENT_TIMESTAMP w)]))
  else (Throw, w).

(** [SELECT * FROM entries] *)
Definition DB_all : Eff (list Row) := fun w =>
  let w := set_trace w (trace w ++ [DbSelectAll]) in
  if d1_up w then (Return (DB w), w) else (Throw, w).

(** [generateQRCodeSVG(text)] of [src/utils.ts]: the content falls back to
    a fixed URL when [text] is the empty string. *)
Definition generateQRCodeSVG (text : string) : Eff string := fun w =>
  let content := if String.eqb text "" then "https://workers.dev" else text in
  let w := set_trace w (trace w ++ [Render content]) in
  match QRCode_svg w content with
  | Some svg => (Return svg, w)
  | None => (Throw, w)
  end.

(** ** [src/worker.tsx] *)

(** *** Request schemas

    Request bodies are taken as [c.req.json()] returns them once they have
    the two (or the one) string fields; strings are sequences of one-byte
    characters, so [length] is the JavaScript [length] on ASCII text. *)

Record EncodeRequest := mkEncodeRequest { text : string; id : string }.
Record QueryRequest := mkQueryRequest { prompt : string }.

(** A schema lists its checks in declaration order, each with the message
    reported when it fails. *)
Definition Schema (T : Type) : Type := list ((T -> bool) * string).

(** The character class of [/^[a-zA-Z0-9_-]+$/]. *)
Definition id_char (c : Ascii.ascii) : bool :=
  let n := Ascii.nat_of_ascii c in
  ((97 <=? n) && (n <=? 122) || (65 <=? n) && (n <=? 90)
   || (48 <=? n) && (n <=? 57) || (n =? 95) || (n =? 45))%nat.

Definition id_regex (s : string) : bool :=
  negb (String.eqb s "") && forallb id_char (String.list_ascii_of_string s).

(** [s.length] *)
Definition strlen (s : string) : Z := Z.of_nat (String.length s).

Definition EncodeSchema : Schema EncodeRequest :=
  [ (fun r => (1 <=? strlen (text r))%Z, "Text is required");
    (fun r => (strlen (text r) <=? 10000)%Z,
     "Text must be less than 10,000 characters");
    (fun r => (1 <=? strlen (id r))%Z, "ID is required");
    (fun r => (strlen (id r) <=? 100)%Z,
     "ID must be less than 100 characters");
    (fun r => id_regex (id r),
     "ID can only contain letters, numbers, hyphens, and underscores") ].

Definition QuerySchema : Schema QueryRequest :=
  [ (fun r => (1 <=? strlen (prompt r))%Z, "Prompt is required");
    (fun r => (strlen (prompt r) <=? 1000)%Z,
     "Prompt must be less than 1,000 characters") ].

(** [validateRequest(schema, data)]: the data, or the message of the first
    failed check. *)
Definition validateRequest {T : Type} (schema : Schema T) (data : T)
    : T + string :=
  match List.filter (fun c => negb (c.1 data)) schema with
  | [] => inl data
  | c :: _ => inr c.2
  end.

(** *** Responses *)

Inductive Body :=
| ErrorBody (error : string)
| SuccessBody
| MatchBody (id text qrCode : string) (score : float) (createdAt : string).

Inductive Response :=
| Json (body : Body) (status : nat)
| NotFound.

Definition status_of (r : Response) : nat :=
  match r with
  | Json _ status => status
  | NotFound => 404
  end.

Definition internal_error : Response :=
  Json (ErrorBody "Internal server error") 500.

(** [resp.data[0] || resp.data]: the first row of the response; an empty
    [data] has no first row and is used itself, as the empty vector. *)
Definition first_or_self (data : list (list float)) : list float :=
  match data with
  | v :: _ => v
  | [] => []
  end.

(** *** [POST /encode] *)

Definition encode (requestData : EncodeRequest) : Eff Response :=
  try_catch
    (match validateRequest EncodeSchema requestData with
     | inr error => mret (Json (ErrorBody error) 400)
     | inl data =>
         let text := text data in
         let id := id data in
         svg ← generateQRCodeSVG text;
         QR_BUCKET_put (id +:+ ".svg") svg;;
         embeddingResp ← AI_run text;
         console_log (EncodeEmbeddingResponse embeddingResp);;
         let embedding := first_or_self embeddingResp in
         console_log (EncodeEmbeddingLength (length embedding));;
         DB_insert id text embedding;;
         mret (Json SuccessBody 200)
     end)
    (console_log EncodeError;;
     mret internal_error).

(** *** [POST /query] *)

(** The acceptance threshold, the literal [0.6]. *)
Definition threshold : float := 0x1.3333333333333p-1.

(** One turn of the [for (const row of results)] loop. *)
Definition select_step (queryVec : list float) (best : option Row * float)
    (row : Row) : option Row * float :=
  let '(bestMatch, bestScore) := best in
  let storedEmbedding := row_embedding row in
  let score := cosineSimilarity queryVec storedEmbedding in
  if PrimFloat.ltb bestScore score then (Some row, score)
  else (bestMatch, bestScore).

(** The loop, with its console line per row. *)
Fixpoint select_loop (queryVec : list float) (results : list Row)
    (best : option Row * float) : Eff (option Row * float) :=
  match results with
  | [] => mret best
  | row :: rest =>
      console_log
        (ScoreFor (row_id row) (cosineSimilarity queryVec (row_embedding row)));;
      select_loop queryVec rest (select_step queryVec best row)
  end.

(** [!bestMatch || bestScore < 0.6] *)
Definition rejected (bestMatch : option Row) (bestScore : float) : bool :=
  match bestMatch with
  | None => true
  | Some _ => PrimFloat.ltb bestScore threshold
  end.

(** The tail of the handler: fetch the artifact of the accepted match. *)
Definition resolve (bestMatch : Row) (bestScore : float) : Eff Response :=
  qr ← QR_BUCKET_get (row_id bestMatch +:+ ".svg");
  match qr with
  | None =>
      console_log (QrNotFound (row_id bestMatch));;
      mret NotFound
  | Some qr_text =>
      mret (Json (MatchBody (row_id bestMatch) (row_text bestMatch) qr_text
                            bestScore (row_created_at bestMatch)) 200)
  end.

Definition query (requestData : QueryRequest) : Eff Response :=
  try_catch
    (match validateRequest QuerySchema requestData with
     | inr error => mret (Json (ErrorBody error) 400)
     | inl data =>
         let prompt := prompt data in
         console_log (SearchingFor prompt);;
         queryResp ← AI_run prompt;
         console_log (QueryEmbeddingResponse queryResp);;
         let queryVec := first_or_self queryResp in
         console_log (QueryEmbeddingLength (length queryVec));;
         results ← DB_all;
         console_log (FoundEntries (length results));;
         match results with
         | [] => mret NotFound
         | _ :: _ =>
             best ← select_loop queryVec results (None, neg_infinity);
             let '(bestMatch, bestScore) := best in
             console_log (BestMatch (row_id <$> bestMatch) bestScore);;
             if rejected bestMatch bestScore then mret NotFound
             else match bestMatch with
                  | Some row => resolve row bestScore
                  | None => mret NotFound
                  end
         end
     end)
    (console_log QueryError;;
     mret internal_error).

(** ** The selection policy of the specification *)

Module Selector.

(** The score of a stored row against the query. *)
Definition score (queryVec : list float) (row : Row) : float :=
  cosineSimilarity queryVec (row_embedding row).

(** The console line the loop writes for a row. *)
Definition score_line (queryVec : list float) (row : Row) : Event :=
  Console (ScoreFor (row_id row) (score queryVec row)).

(** The loop without its console lines. *)
Definition best_of (queryVec : list float) (results : list Row)
    : option Row * float :=
  fold_left (select_step queryVec) results (None, neg_infinity).

(** [first_maximum q rows best]: when [best] names a row, that row sits at
    some position [i] of [rows], its score is above [-Infinity], no row
    scores higher, and no row before position [i] scores as high; when it
    names none, no row scores above [-Infinity]. *)
Definition first_maximum (queryVec : list float) (rows : list Row)
    (best : option Row * float) : Prop :=
  match best.1 with
  | Some row =>
      exists i : nat,
        rows !! i = Some row /\
        best.2 = score queryVec row /\
        PrimFloat.ltb neg_infinity best.2 = true /\
        (forall j r, rows !! j = Some r ->
                     PrimFloat.ltb best.2 (score queryVec r) = false) /\
        (forall j r, (j < i)%nat -> rows !! j = Some r ->
                     PrimFloat.leb best.2 (score queryVec r) = false)
  | None =>
      best.2 = neg_infinity /\
      (forall j r, rows !! j = Some r ->
                   PrimFloat.ltb neg_infinity (score queryVec r) = false)
  end.

(** The collaborator calls of a trace, console lines left out. *)
Definition is_call (e : Event) : bool :=
  match e with
  | Console _ => false
  | _ => true
  end.

Definition calls (t : list Event) : list Event := List.filter is_call t.

(** What [POST /query] asks and writes before the loop starts. *)
Definition query_prefix (prompt : string) (data : list (list float))
    (found : nat) : list Event :=
  [ Console (SearchingFor prompt); AiRun prompt;
    Console (QueryEmbeddingResponse data);
    Console (QueryEmbeddingLength (length (first_or_self data)));
    DbSelectAll; Console (FoundEntries found) ].

End Selector.

(** ** Fixtures *)

Module Fixture.

(** An embedding provider that knows four texts, a renderer that wraps its
    content, both stores up and empty. *)
Definition provider (input : string) : option (list (list float)) :=
  if String.eqb input "hello world" then Some [[1; 0; 0; 0]]
  else if String.eqb input "goodbye" then Some [[2; 4; 2; 1]]
  else if String.eqb input "nothing" then Some [[0; 0; 0; 0]]
  else if String.eqb input "so long" then Some [[3; 4; 0; 0]]
  else None.

Definition renderer (content : string) : option string :=
  Some ("<svg>" +:+ content +:+ "</svg>").

Definition empty_world : World :=
  mkWorld ∅ [] [] provider renderer true true "2024-01-01 00:00:00".

Definition doc1 : Row :=
  mkRow "doc-1" "hello world" [1; 0; 0; 0] "2024-01-01 00:00:00".

Definition doc2 : Row :=
  mkRow "doc-2" "goodbye" [2; 4; 2; 1] "2024-01-01 00:00:00".

Definition twin : Row :=
  mkRow "twin" "hello world" [1; 0; 0; 0] "2024-01-01 00:00:00".

(** [doc-1] registered, then its artifact deleted from the bucket. *)
Definition orphan_world : World :=
  mkWorld ∅ [doc1] [] provider renderer true true "2024-01-01 00:00:00".

(** [doc-1] registered with its artifact in place. *)
Definition doc1_world : World :=
  mkWorld {[ "doc-1.svg" := "<svg>hello world</svg>" ]} [doc1] [] provider
          renderer true true "2024-01-01 00:00:00".

(** [doc-2] registered with its artifact in place. *)
Definition doc2_world : World :=
  mkWorld {[ "doc-2.svg" := "<svg>goodbye</svg>" ]} [doc2] [] provider renderer
          true true "2024-01-01 00:00:00".

End Fixture.

(** ** The stores over a run of requests *)

Module Store.

(** [`${id}.svg`], the key under which both handlers address an artifact. *)
Definition artifact_key (id : string) : string := id +:+ ".svg".

(** No two rows carry the same id. *)
Definition ids_unique (w : World) : Prop := NoDup (map row_id (DB w)).

(** Every row has an artifact under its key. *)
Definition artifacts_present (w : World) : Prop :=
  forall row, row ∈ DB w ->
              is_Some (QR_BUCKET w !! artifact_key (row_id row)).

(** The two POST routes of the application. *)
Inductive Request :=
| PostEncode (requestData : EncodeRequest)
| PostQuery (requestData : QueryRequest).

Definition handle (r : Request) : Eff Response :=
  match r with
  | PostEncode requestData => encode requestData
  | PostQuery requestData => query requestData
  end.

(** Requests served one after the other, each in the world the one before
    it left. *)
Fixpoint serve (requests : list Request) (w : World) : World :=
  match requests with
  | [] => w
  | r :: rest => serve rest (handle r w).2
  end.

End Store.

(** * Facts *)

(** ** IEEE 754 facts used by the development *)

Module FloatFacts.

Import Js.

Ltac to_spec :=
  apply Prim2SF_inj;
  rewrite ?mul_spec, ?add_spec, ?div_spec, ?sqrt_spec;
  unfold SF64mul, SF64add, SF64div, SF64sqrt.

Lemma Prim2SF_nan : Prim2SF nan = S754_nan.
Proof. reflexivity. Qed.

Lemma mul_comm (x y : float) : x * y = y * x.
Proof.
  to_spec. unfold SFmul.
  destruct (Prim2SF x) as [sx|sx| |sx mx ex], (Prim2SF y) as [sy|sy| |sy my ey];
    try reflexivity; rewrite (xorb_comm sx sy); try reflexivity.
  now rewrite Pos.mul_comm, Z.add_comm.
Qed.

Lemma mul_nan_r (x : float) : x * nan = nan.
Proof. to_spec. rewrite Prim2SF_nan. now destruct (Prim2SF x). Qed.

Lemma add_nan_r (x : float) : x + nan = nan.
Proof. to_spec. rewrite Prim2SF_nan. now destruct (Prim2SF x). Qed.

Lemma add_nan_l (x : float) : nan + x = nan.
Proof. to_spec. rewrite Prim2SF_nan. now destruct (Prim2SF x). Qed.

Lemma div_nan_l (x : float) : nan / x = nan.
Proof. to_spec. rewrite Prim2SF_nan. now destruct (Prim2SF x). Qed.

(** *** The order [<] and [<=] on numbers *)

Lemma ltb_compare (x y : float) :
  PrimFloat.ltb x y = true <-> SFcompare (Prim2SF x) (Prim2SF y) = Some Lt.
Proof.
  rewrite FloatAxioms.ltb_spec. unfold SFltb.
  destruct (SFcompare _ _) as [[]|]; split; congruence.
Qed.

Lemma leb_compare (x y : float) :
  PrimFloat.leb x y = true <->
  SFcompare (Prim2SF x) (Prim2SF y) = Some Lt \/
  SFcompare (Prim2SF x) (Prim2SF y) = Some Eq.
Proof.
  rewrite FloatAxioms.leb_spec. unfold SFleb.
  destruct (SFcompare _ _) as [[]|]; split; intros; try tauto; try congruence;
    destruct H; congruence.
Qed.

Ltac cmp_cases :=
  repeat match goal with
  | H : context [Pos.compare_cont Eq ?a ?b] |- _ =>
      change (Pos.compare_cont Eq a b) with (Pos.compare a b) in H
  | |- context [Pos.compare_cont Eq ?a ?b] =>
      change (Pos.compare_cont Eq a b) with (Pos.compare a b)
  | H : context [Z.compare ?a ?b] |- _ => destruct (Z.compare_spec a b)
  | |- context [Z.compare ?a ?b] => destruct (Z.compare_spec a b)
  | H : context [Pos.compare ?a ?b] |- _ => destruct (Pos.compare_spec a b)
  | |- context [Pos.compare ?a ?b] => destruct (Pos.compare_spec a b)
  end;
  simpl in *; subst; try reflexivity; try discriminate; try lia.

Lemma SFcompare_lt_le_trans (x y z : spec_float) :
  SFcompare x y = Some Lt ->
  SFcompare y z = Some Lt \/ SFcompare y z = Some Eq ->
  SFcompare x z = Some Lt.
Proof.
  intros Hxy [Hyz|Hyz];
    destruct x as [sx|sx| |sx mx ex], y as [sy|sy| |sy my ey],
             z as [sz|sz| |sz mz ez];
    try discriminate;
    repeat match goal with s : bool |- _ => destruct s end;
    simpl in *; try discriminate; try reflexivity;
    injection Hxy as Hxy; injection Hyz as Hyz; f_equal; cmp_cases.
Qed.

Lemma SFcompare_total (x y : spec_float) :
  x <> S754_nan -> y <> S754_nan ->
  SFcompare x y = Some Lt \/ SFcompare y x = Some Lt \/ SFcompare y x = Some Eq.
Proof.
  intros Hx Hy;
    destruct x as [sx|sx| |sx mx ex], y as [sy|sy| |sy my ey];
    try congruence;
    repeat match goal with s : bool |- _ => destruct s end;
    simpl; try tauto;
    cmp_cases; try tauto.
Qed.

Lemma SFcompare_lt_asym (x y : spec_float) :
  SFcompare x y = Some Lt ->
  ~ (SFcompare y x = Some Lt \/ SFcompare y x = Some Eq).
Proof.
  intros Hxy [Hyx|Hyx];
    destruct x as [sx|sx| |sx mx ex], y as [sy|sy| |sy my ey];
    try discriminate;
    repeat match goal with s : bool |- _ => destruct s end;
    simpl in *; try discriminate;
    injection Hxy as Hxy; injection Hyx as Hyx; cmp_cases.
Qed.

Lemma SFcompare_refl (x : spec_float) :
  x <> S754_nan -> SFcompare x x = Some Eq.
Proof.
  destruct x as [sx|sx| |sx mx ex]; try congruence; intros _;
    destruct sx; simpl; try reflexivity;
    rewrite Z.compare_refl;
    change (Pos.compare_cont Eq mx mx) with (Pos.compare mx mx);
    now rewrite Pos.compare_refl.
Qed.

Lemma is_number_spec (x : float) :
  is_number x = true <-> Prim2SF x <> S754_nan.
Proof.
  unfold is_number. rewrite FloatAxioms.eqb_spec. unfold SFeqb. split.
  - intros H E. rewrite E in H. discriminate.
  - intros H. now rewrite SFcompare_refl.
Qed.

Lemma ltb_leb_trans (x y z : float) :
  PrimFloat.ltb x y = true -> PrimFloat.leb y z = true ->
  PrimFloat.ltb x z = true.
Proof.
  rewrite !ltb_compare, leb_compare. apply SFcompare_lt_le_trans.
Qed.

Lemma ltb_leb (x y : float) :
  PrimFloat.ltb x y = true -> PrimFloat.leb x y = true.
Proof. rewrite ltb_compare, leb_compare. tauto. Qed.

Lemma ltb_trans (x y z : float) :
  PrimFloat.ltb x y = true -> PrimFloat.ltb y z = true ->
  PrimFloat.ltb x z = true.
Proof. intros Hxy Hyz. eapply ltb_leb_trans; eauto using ltb_leb. Qed.

Lemma ltb_not_leb (x y : float) :
  PrimFloat.ltb x y = true -> PrimFloat.leb y x = false.
Proof.
  intros H. apply not_true_is_false. revert H.
  rewrite ltb_compare, leb_compare. apply SFcompare_lt_asym.
Qed.

Lemma leb_not_ltb (x y : float) :
  PrimFloat.leb y x = true -> PrimFloat.ltb x y = false.
Proof.
  intros H. destruct (PrimFloat.ltb x y) eqn:E; [|reflexivity].
  apply ltb_not_leb in E. congruence.
Qed.

(** On numbers the order is total: [not (x < y)] is [y <= x]. *)
Lemma not_ltb_leb (x y : float) :
  is_number x = true -> is_number y = true ->
  PrimFloat.ltb x y = false -> PrimFloat.leb y x = true.
Proof.
  rewrite !is_number_spec. intros Hx Hy Hlt.
  apply leb_compare.
  destruct (SFcompare_total _ _ Hx Hy) as [H|H]; [|exact H].
  apply ltb_compare in H. congruence.
Qed.

(** Both sides of a true comparison are numbers. *)
Lemma ltb_is_number (x y : float) :
  PrimFloat.ltb x y = true -> is_number x = true /\ is_number y = true.
Proof.
  rewrite ltb_compare, !is_number_spec.
  destruct (Prim2SF x), (Prim2SF y); simpl; intros H; split; congruence.
Qed.

(** Nothing is below NaN. *)
Lemma ltb_nan_r (x : float) : PrimFloat.ltb x nan = false.
Proof.
  destruct (PrimFloat.ltb x nan) eqn:E; [|reflexivity].
  apply ltb_is_number in E as [_ E]. discriminate.
Qed.

(** *** Signed zeros and NaN *)

Lemma SF2Prim_zero (s : bool) : zero_or_nan (SF2Prim (S754_zero s)).
Proof. destruct s; [right; left|left]; reflexivity. Qed.

Lemma is_zero_cases (x : float) : is_zero x = true -> x = 0 \/ x = -0.
Proof.
  unfold is_zero. rewrite FloatAxioms.eqb_spec. intros H.
  rewrite <- (SF2Prim_Prim2SF x).
  destruct (Prim2SF x) as [[]|[]| |[] m e]; try discriminate H;
    [right|left]; reflexivity.
Qed.

Lemma is_zero_zn (x : float) : is_zero x = true -> zero_or_nan x.
Proof. intros [H|H]%is_zero_cases; unfold zero_or_nan; tauto. Qed.

Lemma mul_zn_l (x y : float) : zero_or_nan x -> zero_or_nan (x * y).
Proof.
  intros Hx. rewrite <- (SF2Prim_Prim2SF (x * y)), mul_spec.
  unfold SF64mul.
  destruct Hx as [->|[->| ->]];
    (destruct (Prim2SF y) as [sy|sy| |sy my ey]; simpl;
     first [apply SF2Prim_zero | right; right; reflexivity]).
Qed.

Lemma mul_zn_r (x y : float) : zero_or_nan y -> zero_or_nan (x * y).
Proof. rewrite mul_comm. apply mul_zn_l. Qed.

Lemma add_zn (x y : float) :
  zero_or_nan x -> zero_or_nan y -> zero_or_nan (x + y).
Proof.
  intros [->|[->| ->]] [->|[->| ->]]; vm_compute; tauto.
Qed.

Lemma sqrt_zn (x : float) : zero_or_nan x -> zero_or_nan (sqrt x).
Proof. intros [->|[->| ->]]; vm_compute; tauto. Qed.

Lemma div_zn (x y : float) : zero_or_nan x -> zero_or_nan y -> x / y = nan.
Proof. intros [->|[->| ->]] [->|[->| ->]]; reflexivity. Qed.

(** A quotient by a zero or by NaN is never finite. *)
Lemma div_by_zn (x y : float) :
  zero_or_nan y -> x / y = nan \/ x / y = infinity \/ x / y = neg_infinity.
Proof.
  intros Hy. rewrite <- (SF2Prim_Prim2SF (x / y)), div_spec. unfold SF64div.
  destruct Hy as [->|[->| ->]];
    destruct (Prim2SF x) as [[]|[]| |[] mx ex]; simpl; tauto.
Qed.

End FloatFacts.

(** ** The comparator *)

Section ComparatorFacts.

Import Js FloatFacts Cosine.

Lemma reduce_from_fold {A B : Type} (f : B -> A -> B) i (l : list A) acc :
  Js.reduce_from (fun s x _ => f s x) i l acc = fold_left f l acc.
Proof. revert i acc. induction l as [|x l IH]; intros; simpl; auto. Qed.

Lemma magnitude_norm (a : list float) :
  sqrt (Js.reduce (fun sum ai _ => sum + ai * ai) a 0) = norm a.
Proof. unfold Js.reduce, norm. now rewrite reduce_from_fold. Qed.

(** While the index stays inside [b], the indexed reduction pairs up the
    entries of [a] with those of [b]. *)
Lemma reduce_from_zip (b a : list float) k acc :
  (length a <= length (drop k b))%nat ->
  Js.reduce_from (fun sum ai i => sum + ai * Js.ToNumber (b !! i)) k a acc
  = fold_left (fun s p => s + p.1 * p.2) (zip a (drop k b)) acc.
Proof.
  revert k acc. induction a as [|x a IH]; intros k acc Hlen; [reflexivity|].
  destruct (b !! k) as [y|] eqn:Hk.
  - rewrite (drop_S _ _ _ Hk) in Hlen |- *. simpl in *.
    rewrite Hk. simpl. apply IH. lia.
  - apply lookup_ge_None in Hk. rewrite length_drop in Hlen. simpl in Hlen. lia.
Qed.

Lemma reduce_from_nan (b a : list float) k :
  Js.reduce_from (fun sum ai i => sum + ai * Js.ToNumber (b !! i)) k a nan = nan.
Proof.
  revert k. induction a as [|x a IH]; intros k; simpl; [reflexivity|].
  now rewrite add_nan_l.
Qed.

(** Once the index leaves [b], [undefined] poisons the sum. *)
Lemma reduce_from_short (b a : list float) k acc :
  (length (drop k b) < length a)%nat ->
  Js.reduce_from (fun sum ai i => sum + ai * Js.ToNumber (b !! i)) k a acc = nan.
Proof.
  revert k acc. induction a as [|x a IH]; intros k acc Hlen; simpl in *; [lia|].
  destruct (b !! k) as [y|] eqn:Hk; simpl.
  - apply IH. rewrite (drop_S _ _ _ Hk) in Hlen. simpl in Hlen. lia.
  - rewrite mul_nan_r, add_nan_r. apply reduce_from_nan.
Qed.

Lemma dot_zip_take (a b : list float) :
  dot a b = dot a (take (length a) b).
Proof.
  unfold dot. f_equal. revert b.
  induction a as [|x a IH]; intros [|y b]; simpl; try reflexivity.
  now rewrite IH.
Qed.

Lemma cosineSimilarity_le (a b : list float) :
  (length a <= length b)%nat -> cosineSimilarity a b = cosine a b.
Proof.
  intros Hlen. unfold cosineSimilarity, cosine.
  rewrite !magnitude_norm. f_equal.
  unfold Js.reduce, dot. now rewrite reduce_from_zip.
Qed.

Lemma fold_dot_comm (a b : list float) acc :
  fold_left (fun s p => s + p.1 * p.2) (zip a b) acc
  = fold_left (fun s p => s + p.1 * p.2) (zip b a) acc.
Proof.
  revert b acc. induction a as [|x a IH]; intros [|y b] acc; simpl;
    try reflexivity.
  now rewrite (mul_comm x y), IH.
Qed.

Lemma cosine_comm (a b : list float) : cosine a b = cosine b a.
Proof.
  unfold cosine, dot. now rewrite fold_dot_comm, (mul_comm (norm a)).
Qed.

(** Sums of products with an all-zero vector stay among the zeros and NaN. *)
Lemma reduce_zero_l (b a : list float) k acc :
  zero_vector a -> zero_or_nan acc ->
  zero_or_nan
    (Js.reduce_from (fun sum ai i => sum + ai * Js.ToNumber (b !! i)) k a acc).
Proof.
  intros Ha. revert k acc.
  induction Ha as [|x a Hx Ha IH]; intros k acc Hacc; simpl; [exact Hacc|].
  apply IH, add_zn; [exact Hacc|]. now apply mul_zn_l, is_zero_zn.
Qed.

Lemma reduce_zero_r (b a : list float) k acc :
  zero_vector b -> zero_or_nan acc ->
  zero_or_nan
    (Js.reduce_from (fun sum ai i => sum + ai * Js.ToNumber (b !! i)) k a acc).
Proof.
  intros Hb. revert k acc.
  induction a as [|x a IH]; intros k acc Hacc; simpl; [exact Hacc|].
  apply IH, add_zn; [exact Hacc|]. apply mul_zn_r.
  destruct (b !! k) as [y|] eqn:Hk; simpl.
  - apply is_zero_zn. unfold zero_vector in Hb.
    rewrite Forall_forall in Hb. apply Hb.
    eapply list_elem_of_lookup_2; eauto.
  - right; right; reflexivity.
Qed.

Lemma magnitude_zero (v : list float) :
  zero_vector v ->
  zero_or_nan (sqrt (Js.reduce (fun sum x _ => sum + x * x) v 0)).
Proof.
  intros Hv. apply sqrt_zn. unfold Js.reduce. generalize 0%nat.
  assert (Hacc : zero_or_nan 0) by (left; reflexivity). revert Hacc.
  generalize 0 as acc.
  induction Hv as [|x v Hx Hv IH]; intros acc Hacc k; simpl; [exact Hacc|].
  apply IH, add_zn; [exact Hacc|]. now apply mul_zn_l, is_zero_zn.
Qed.

(** A magnitude that is a zero makes the denominator a zero or NaN. *)
Lemma cosineSimilarity_zero_norm (a b : list float) :
  is_zero (norm a) = true \/ is_zero (norm b) = true ->
  cosineSimilarity a b = nan \/ cosineSimilarity a b = infinity
  \/ cosineSimilarity a b = neg_infinity.
Proof.
  intros H. unfold cosineSimilarity. rewrite !magnitude_norm.
  apply div_by_zn. destruct H as [H|H]; apply is_zero_zn in H.
  - now apply mul_zn_l.
  - now apply mul_zn_r.
Qed.

Lemma cosineSimilarity_zero_l (a b : list float) :
  zero_vector a -> cosineSimilarity a b = nan.
Proof.
  intros Ha. unfold cosineSimilarity. apply div_zn.
  - apply reduce_zero_l; [exact Ha|left; reflexivity].
  - now apply mul_zn_l, magnitude_zero.
Qed.

Lemma cosineSimilarity_zero_r (a b : list float) :
  zero_vector b -> cosineSimilarity a b = nan.
Proof.
  intros Hb. unfold cosineSimilarity. apply div_zn.
  - apply reduce_zero_r; [exact Hb|left; reflexivity].
  - now apply mul_zn_r, magnitude_zero.
Qed.

End ComparatorFacts.

Section ComparatorClaims.

Import Js FloatFacts Cosine.

Example cosineSimilarity_identical : cosineSimilarity [3; 4] [3; 4] = 1.
Proof. reflexivity. Qed.

Example cosineSimilarity_orthogonal : cosineSimilarity [1; 0] [0; 1] = 0.
Proof. reflexivity. Qed.

(** Entries too small for their squares vanish in the magnitude although
    they are not zero; the quotient is then an infinity, not NaN. *)
Example cosineSimilarity_underflow :
  cosineSimilarity [0x1p-600] [1] = infinity.
Proof. reflexivity. Qed.

(** C1: for vectors of equal length, [cosineSimilarity a b] is the dot
    product of [a] and [b] divided by the product of their Euclidean norms,
    each evaluated in binary64 from left to right.  The equation needs no
    assumption on the magnitudes, so it holds in particular when both are
    nonzero. *)
Theorem cosineSimilarity_is_cosine (a b : list float) :
  length a = length b ->
  cosineSimilarity a b = dot a b / (norm a * norm b).
Proof.
  intros Hlen. rewrite cosineSimilarity_le by lia. reflexivity.
Qed.

Lemma cosineSimilarity_is_cosine_witness :
  length [1; 2; 2] = length [2; 1; 2] /\
  cosineSimilarity [1; 2; 2] [2; 1; 2] = dot [1; 2; 2] [2; 1; 2] / (norm [1; 2; 2] * norm [2; 1; 2]).
Proof.
  split; [reflexivity|]. apply cosineSimilarity_is_cosine. reflexivity.
Defined.

(** C9: for vectors of equal length the comparator is symmetric: both
    orders of the arguments give the same value. *)
Theorem cosineSimilarity_symmetric (a b : list float) :
  length a = length b ->
  cosineSimilarity a b = cosineSimilarity b a.
Proof.
  intros Hlen.
  rewrite (cosineSimilarity_le a b), (cosineSimilarity_le b a) by lia.
  apply cosine_comm.
Qed.

Lemma cosineSimilarity_symmetric_witness :
  length [1; 2; 2] = length [2; 1; 2] /\
  cosineSimilarity [1; 2; 2] [2; 1; 2] = cosineSimilarity [2; 1; 2] [1; 2; 2].
Proof.
  split; [reflexivity|]. apply cosineSimilarity_symmetric. reflexivity.
Defined.

(** Under JavaScript's [===], which NaN fails against itself, the two
    orders compare equal whenever the score is a number. *)
Lemma cosineSimilarity_strict_equal (a b : list float) :
  length a = length b ->
  PrimFloat.eqb (cosineSimilarity a b) (cosineSimilarity b a)
  = is_number (cosineSimilarity a b).
Proof.
  intros Hlen.
  rewrite (cosineSimilarity_le a b), (cosineSimilarity_le b a) by lia.
  now rewrite (cosine_comm b a).
Qed.

(** C4, as stated, fails: on a one-entry and a two-entry vector the
    comparator raises nothing and returns the score [1]. *)
Lemma cosineSimilarity_mismatch_scores :
  length [1] <> length [1; 0] /\
  cosineSimilarity [1] [1; 0] = 1 /\
  is_number (cosineSimilarity [1] [1; 0]) = true.
Proof. repeat split; [discriminate | reflexivity..]. Qed.

(** C4, amended: on vectors of unequal length the comparator raises no
    error.  When [b] is the shorter one the result is NaN; when [b] is the
    longer one its surplus entries are left out of the dot product but
    counted in its norm. *)
Theorem cosineSimilarity_unequal_lengths (a b : list float) :
  (length b < length a -> cosineSimilarity a b = nan) /\
  (length a < length b ->
   cosineSimilarity a b = dot a (take (length a) b) / (norm a * norm b)).
Proof.
  split; intros Hlen.
  - unfold cosineSimilarity, reduce.
    rewrite (reduce_from_short b a 0) by (rewrite drop_0; exact Hlen).
    apply div_nan_l.
  - rewrite cosineSimilarity_le by lia. unfold cosine.
    now rewrite <- dot_zip_take.
Qed.

Lemma cosineSimilarity_unequal_lengths_witness :
  cosineSimilarity [1; 2] [1] = nan /\
  cosineSimilarity [3] [3; 4] = dot [3] (take 1 [3; 4]) / (norm [3] * norm [3; 4]).
Proof.
  split.
  - apply (cosineSimilarity_unequal_lengths [1; 2] [1]). simpl. lia.
  - apply (cosineSimilarity_unequal_lengths [3] [3; 4]). simpl. lia.
Defined.

End ComparatorClaims.

(** ** The selection loop *)

Section SelectionFacts.

Import Js FloatFacts Selector.

Lemma set_trace_id (w : World) : set_trace w (trace w ++ []) = w.
Proof. destruct w. unfold set_trace. simpl. now rewrite app_nil_r. Qed.

(** The loop returns what the fold of its step returns and writes one
    console line per row, in the order of the rows. *)
Lemma select_loop_run (queryVec : list float) (rows : list Row)
    (best : option Row * float) (w : World) :
  select_loop queryVec rows best w
  = (Return (fold_left (select_step queryVec) rows best),
     set_trace w (trace w ++ map (score_line queryVec) rows)).
Proof.
  revert best w. induction rows as [|row rows IH]; intros best w; simpl.
  - unfold mret, Eff_ret. now rewrite set_trace_id.
  - unfold mbind, Eff_bind, console_log, emit. rewrite IH.
    unfold set_trace. simpl. now rewrite <- app_assoc.
Qed.

Lemma ltb_irrefl (x : float) : PrimFloat.ltb x x = false.
Proof.
  destruct (PrimFloat.ltb x x) eqn:E; [|reflexivity].
  pose proof (ltb_leb _ _ E) as Hle. apply ltb_not_leb in E. congruence.
Qed.

(** What both branches of [first_maximum] share. *)
Lemma first_maximum_no_higher (queryVec : list float) (rows : list Row)
    (best : option Row * float) :
  first_maximum queryVec rows best ->
  forall j r, rows !! j = Some r ->
              PrimFloat.ltb best.2 (score queryVec r) = false.
Proof.
  destruct best as [[row|] bs]; unfold first_maximum; simpl.
  - intros (i & _ & _ & _ & H & _). exact H.
  - intros [-> H]. exact H.
Qed.

Lemma first_maximum_step (queryVec : list float) (rows : list Row)
    (best : option Row * float) (row : Row) :
  first_maximum queryVec rows best ->
  first_maximum queryVec (rows ++ [row]) (select_step queryVec best row).
Proof.
  intros Hbest.
  pose proof (first_maximum_no_higher _ _ _ Hbest) as Hno.
  destruct best as [bm bs]. unfold select_step. simpl in Hno.
  fold (score queryVec row).
  destruct (PrimFloat.ltb bs (score queryVec row)) eqn:Hlt.
  - (* the row becomes the best match *)
    unfold first_maximum. simpl. exists (length rows). repeat split.
    + now rewrite lookup_app_r, Nat.sub_diag by lia.
    + destruct bm as [prev|]; unfold first_maximum in Hbest; simpl in Hbest.
      * destruct Hbest as (i & _ & _ & Hinf & _). eapply ltb_trans; eauto.
      * destruct Hbest as [-> _]. exact Hlt.
    + intros j r Hj.
      destruct (PrimFloat.ltb (score queryVec row) (score queryVec r)) eqn:E;
        [|reflexivity].
      destruct (decide (j < length rows)%nat) as [Hlen|Hlen].
      * rewrite lookup_app_l in Hj by exact Hlen.
        rewrite <- (Hno j r Hj). symmetry. eapply ltb_trans; eauto.
      * rewrite lookup_app_r in Hj by lia.
        destruct (j - length rows)%nat; simpl in Hj; [|discriminate].
        injection Hj as <-. now rewrite ltb_irrefl in E.
    + intros j r Hj Hr. rewrite lookup_app_l in Hr by exact Hj.
      destruct (PrimFloat.leb (score queryVec row) (score queryVec r)) eqn:E;
        [|reflexivity].
      rewrite <- (Hno j r Hr). symmetry. eapply ltb_leb_trans; eauto.
  - (* the best match stays *)
    assert (Hall : forall j r, (rows ++ [row]) !! j = Some r ->
                     PrimFloat.ltb bs (score queryVec r) = false).
    { intros j r Hj.
      destruct (decide (j < length rows)%nat) as [Hlen|Hlen].
      - rewrite lookup_app_l in Hj by exact Hlen. eauto.
      - rewrite lookup_app_r in Hj by lia.
        destruct (j - length rows)%nat; simpl in Hj; [|discriminate].
        now injection Hj as <-. }
    destruct bm as [prev|]; unfold first_maximum in *; simpl in *.
    + destruct Hbest as (i & Hi & Hs & Hinf & _ & Hbefore).
      exists i. repeat split; auto.
      * rewrite lookup_app_l; [exact Hi|]. eapply lookup_lt_Some; eauto.
      * intros j r Hj Hr. apply (Hbefore j r Hj).
        rewrite lookup_app_l in Hr; [exact Hr|].
        apply lookup_lt_Some in Hi. lia.
    + destruct Hbest as [-> _]. split; auto.
Qed.

Lemma best_of_first_maximum (queryVec : list float) (rows : list Row) :
  first_maximum queryVec rows (best_of queryVec rows).
Proof.
  unfold best_of. induction rows as [|row rows IH] using rev_ind.
  - simpl. split; [reflexivity|]. intros j r Hj. discriminate.
  - rewrite fold_left_app. simpl. now apply first_maximum_step.
Qed.

(** The score kept with a best match is a number; with none it is
    [-Infinity]. *)
Lemma best_of_is_number (queryVec : list float) (rows : list Row) :
  is_number (best_of queryVec rows).2 = true.
Proof.
  pose proof (best_of_first_maximum queryVec rows) as H.
  destruct (best_of queryVec rows) as [[row|] bs];
    unfold first_maximum in H; simpl in *.
  - destruct H as (i & _ & _ & Hinf & _). now apply ltb_is_number in Hinf.
  - destruct H as [-> _]. reflexivity.
Qed.

End SelectionFacts.

Section SelectionClaims.

Import Js FloatFacts Cosine Selector.

(** A winner exists as soon as one row scores above [-Infinity]. *)
Lemma best_of_some (queryVec : list float) (rows : list Row) (j : nat) (r : Row) :
  rows !! j = Some r ->
  PrimFloat.ltb neg_infinity (score queryVec r) = true ->
  exists row, (best_of queryVec rows).1 = Some row.
Proof.
  intros Hj Hr. pose proof (best_of_first_maximum queryVec rows) as H.
  destruct (best_of queryVec rows) as [[row|] bs]; [now exists row|].
  unfold first_maximum in H. simpl in H. destruct H as [_ H].
  rewrite (H j r Hj) in Hr. discriminate.
Qed.

(** Two rows with the same score: the earlier one wins. *)
Example tie_goes_to_the_first :
  best_of [1; 0; 0; 0] [Fixture.doc2; Fixture.doc1; Fixture.twin]
  = (Some Fixture.doc1, 1).
Proof. reflexivity. Qed.

(** C2, as stated, fails: a zero query vector scores NaN against the one
    stored row, and the loop returns no candidate from a non-empty list. *)
Lemma select_loop_nan_selects_none :
  [Fixture.doc1] <> [] /\
  (select_loop [0; 0; 0; 0] [Fixture.doc1] (None, neg_infinity)
               Fixture.empty_world).1
  = Return (None, neg_infinity).
Proof. split; [discriminate|reflexivity]. Qed.

(** C2, amended: for every query vector and every candidate list the loop
    scores each candidate exactly once, in order.  A candidate whose score is
    NaN or [-Infinity] is passed over.  If some candidate scores above
    [-Infinity], the loop returns the first candidate that no other
    candidate outscores; if none does, it returns no candidate. *)
Theorem select_loop_first_maximum (queryVec : list float) (rows : list Row)
    (w : World) :
  (select_loop queryVec rows (None, neg_infinity) w).2
  = set_trace w (trace w ++ map (score_line queryVec) rows) /\
  exists best,
    (select_loop queryVec rows (None, neg_infinity) w).1 = Return best /\
    first_maximum queryVec rows best.
Proof.
  rewrite select_loop_run. simpl. split; [reflexivity|].
  exists (best_of queryVec rows). split; [reflexivity|].
  apply best_of_first_maximum.
Qed.

(** C5, as stated, fails: against a zero vector the comparator returns
    NaN, which is not a number, and the loop compares it. *)
Lemma zero_vector_scores_nan :
  zero_vector [0; 0] /\
  cosineSimilarity [0; 0] [1; 2] = nan /\
  is_number (cosineSimilarity [0; 0] [1; 2]) = false /\
  (select_loop [0; 0] [mkRow "a" "t" [1; 2] "c"] (None, neg_infinity)
               Fixture.empty_world).2
  = set_trace Fixture.empty_world [Console (ScoreFor "a" nan)].
Proof. repeat split; repeat constructor. Qed.

(** C5, amended: when either vector has magnitude zero, the comparator
    raises no error and returns NaN or an infinity, NaN whenever the vector
    consists of zeros only; the loop compares the value with the best score
    as it is, and with a NaN the comparison is false: the turn of the loop
    for that row writes its console line and leaves the best match and the
    best score as they were. *)
Theorem zero_magnitude_is_nan_and_skipped :
  (forall a b : list float,
     is_zero (norm a) = true \/ is_zero (norm b) = true ->
     cosineSimilarity a b = nan \/ cosineSimilarity a b = infinity
     \/ cosineSimilarity a b = neg_infinity) /\
  (forall a b : list float,
     zero_vector a \/ zero_vector b -> cosineSimilarity a b = nan) /\
  (forall (queryVec : list float) (row : Row) (rest : list Row)
          (best : option Row * float) (w : World),
     zero_vector queryVec \/ zero_vector (row_embedding row) ->
     select_loop queryVec (row :: rest) best w
     = select_loop queryVec rest best
         (set_trace w (trace w ++ [Console (ScoreFor (row_id row) nan)]))).
Proof.
  assert (Hnan : forall a b : list float,
             zero_vector a \/ zero_vector b -> cosineSimilarity a b = nan).
  { intros a b [H|H];
      [now apply cosineSimilarity_zero_l | now apply cosineSimilarity_zero_r]. }
  split; [exact cosineSimilarity_zero_norm|]. split; [exact Hnan|].
  intros queryVec row rest [bm bs] w H. simpl.
  unfold mbind, Eff_bind, console_log, emit, select_step.
  now rewrite (Hnan _ _ H), ltb_nan_r.
Qed.

Lemma zero_magnitude_is_nan_and_skipped_witness :
  (cosineSimilarity [0x1p-600] [1] = nan \/ cosineSimilarity [0x1p-600] [1] = infinity
   \/ cosineSimilarity [0x1p-600] [1] = neg_infinity) /\
  cosineSimilarity [0; -0] [1; 2] = nan /\
  select_loop [3; 4] [mkRow "z" "t" [0; 0] "c"] (Some Fixture.doc1, 1)
              Fixture.empty_world
  = (Return (Some Fixture.doc1, 1),
     set_trace Fixture.empty_world [Console (ScoreFor "z" nan)]).
Proof.
  pose proof zero_magnitude_is_nan_and_skipped as (Hnorm & Hnan & Hstep).
  split; [|split].
  - apply Hnorm. left. reflexivity.
  - apply Hnan. left. repeat constructor.
  - rewrite Hstep by (right; repeat constructor). reflexivity.
Defined.

End SelectionClaims.

(** ** The handlers, run *)

Section HandlerFacts.

Import Js FloatFacts Selector.

Ltac run_eff :=
  unfold try_catch, mbind, Eff_bind, mret, Eff_ret, console_log, emit,
    generateQRCodeSVG, QR_BUCKET_put, QR_BUCKET_get, AI_run, DB_insert, DB_all,
    set_DB, set_QR_BUCKET, set_trace;
  simpl.

Lemma valid_text_nonempty (req : EncodeRequest) :
  validateRequest EncodeSchema req = inl req -> String.eqb (text req) "" = false.
Proof.
  destruct req as [t i]. destruct t as [|c t]; [|reflexivity].
  unfold validateRequest. simpl. discriminate.
Qed.

(** [POST /encode] on a valid request whose artifact renders and whose
    bucket write goes through. *)
Lemma encode_run (req : EncodeRequest) (w : World) (svg : string) :
  validateRequest EncodeSchema req = inl req ->
  QRCode_svg w (text req) = Some svg ->
  r2_up w = true ->
  let key := id req +:+ ".svg" in
  let stored := <[key := svg]> (QR_BUCKET w) in
  let t1 := trace w ++ [Render (text req); BucketPut key svg; AiRun (text req)] in
  encode req w =
  match AI w (text req) with
  | None =>
      (Return internal_error,
       set_QR_BUCKET (set_trace w (t1 ++ [Console EncodeError])) stored)
  | Some data =>
      let embedding := first_or_self data in
      let t2 := t1 ++ [Console (EncodeEmbeddingResponse data);
                       Console (EncodeEmbeddingLength (length embedding));
                       DbInsert (id req) (text req) embedding] in
      if d1_up w && negb (primary_key_taken (id req) (DB w))
      then (Return (Json SuccessBody 200),
            set_DB (set_QR_BUCKET (set_trace w t2) stored)
                   (DB w ++ [mkRow (id req) (text req)
                                   (map JSON_roundtrip embedding)
                                   (CURRENT_TIMESTAMP w)]))
      else (Return internal_error,
            set_QR_BUCKET (set_trace w (t2 ++ [Console EncodeError])) stored)
  end.
Proof.
  intros Hvalid Hsvg Hr2. simpl.
  unfold encode. rewrite Hvalid. run_eff.
  rewrite (valid_text_nonempty _ Hvalid), Hsvg, Hr2. simpl.
  destruct (AI w (text req)) as [data|]; simpl.
  - destruct (d1_up w && negb (primary_key_taken (id req) (DB w))); simpl;
      repeat rewrite <- app_assoc; reflexivity.
  - repeat rewrite <- app_assoc; reflexivity.
Qed.

(** [POST /query] on a valid request whose prompt embeds and whose
    database read goes through. *)
Lemma query_run (req : QueryRequest) (w : World) (data : list (list float)) :
  validateRequest QuerySchema req = inl req ->
  AI w (prompt req) = Some data ->
  d1_up w = true ->
  let queryVec := first_or_self data in
  let best := best_of queryVec (DB w) in
  let t1 := trace w ++ query_prefix (prompt req) data (length (DB w)) in
  let t2 := t1 ++ map (score_line queryVec) (DB w)
               ++ [Console (BestMatch (row_id <$> best.1) best.2)] in
  query req w =
  match DB w with
  | [] => (Return NotFound, set_trace w t1)
  | _ :: _ =>
      if rejected best.1 best.2 then (Return NotFound, set_trace w t2)
      else
        match best.1 with
        | None => (Return NotFound, set_trace w t2)
        | Some row =>
            let key := row_id row +:+ ".svg" in
            if r2_up w then
              match QR_BUCKET w !! key with
              | None =>
                  (Return NotFound,
                   set_trace w (t2 ++ [BucketGet key;
                                       Console (QrNotFound (row_id row))]))
              | Some qr_text =>
                  (Return (Json (MatchBody (row_id row) (row_text row) qr_text
                                           best.2 (row_created_at row)) 200),
                   set_trace w (t2 ++ [BucketGet key]))
              end
            else
              (Return internal_error,
               set_trace w (t2 ++ [BucketGet key; Console QueryError]))
        end
  end.
Proof.
  intros Hvalid Hai Hd1. simpl.
  unfold query. rewrite Hvalid. run_eff. rewrite Hai. simpl. rewrite Hd1.
  destruct (DB w) as [|row0 rows] eqn:Hdb.
  - simpl. repeat rewrite <- app_assoc. reflexivity.
  - rewrite select_loop_run. fold (best_of (first_or_self data) (row0 :: rows)).
    destruct (best_of (first_or_self data) (row0 :: rows)) as [bm bs].
    unfold resolve. run_eff.
    destruct (rejected bm bs).
    + repeat (rewrite <- app_assoc; simpl). reflexivity.
    + destruct bm as [row|]; simpl.
      * destruct (r2_up w); simpl.
        -- destruct (QR_BUCKET w !! (row_id row +:+ ".svg")); simpl;
             repeat (rewrite <- app_assoc; simpl); reflexivity.
        -- repeat (rewrite <- app_assoc; simpl); reflexivity.
      * repeat (rewrite <- app_assoc; simpl). reflexivity.
Qed.

End HandlerFacts.

(** ** Retrieval *)

Section RetrievalClaims.

Import Js FloatFacts Selector.

(** A score of exactly [0.6] is accepted. *)
Example threshold_is_inclusive :
  (query (mkQueryRequest "so long") Fixture.doc1_world).1
  = Return (Json (MatchBody "doc-1" "hello world" "<svg>hello world</svg>"
                            threshold "2024-01-01 00:00:00") 200).
Proof. reflexivity. Qed.

(** C3: with the artifact in place, the best match is returned exactly when
    its score is at least [0.6], and the answer is "not found" otherwise; in
    particular a non-empty collection whose best score is below [0.6] yields
    "not found". *)
Theorem accepted_iff_threshold_reached :
  (forall (req : QueryRequest) (w : World) (data : list (list float))
          (row : Row) (bestScore : float) (qr_text : string),
     validateRequest QuerySchema req = inl req ->
     AI w (prompt req) = Some data ->
     d1_up w = true ->
     r2_up w = true ->
     best_of (first_or_self data) (DB w) = (Some row, bestScore) ->
     QR_BUCKET w !! (row_id row +:+ ".svg") = Some qr_text ->
     (query req w).1 =
     if PrimFloat.leb threshold bestScore
     then Return (Json (MatchBody (row_id row) (row_text row) qr_text bestScore
                                  (row_created_at row)) 200)
     else Return NotFound) /\
  (forall (req : QueryRequest) (w : World) (data : list (list float)),
     validateRequest QuerySchema req = inl req ->
     AI w (prompt req) = Some data ->
     d1_up w = true ->
     DB w <> [] ->
     PrimFloat.ltb (best_of (first_or_self data) (DB w)).2 threshold = true ->
     (query req w).1 = Return NotFound).
Proof.
  split.
  - intros req w data row bs qr_text Hvalid Hai Hd1 Hr2 Hbest Hqr.
    rewrite (query_run req w data Hvalid Hai Hd1). simpl.
    pose proof (best_of_is_number (first_or_self data) (DB w)) as Hnum.
    rewrite Hbest in *. simpl in *.
    destruct (DB w) as [|row0 rows]; [discriminate Hbest|].
    rewrite Hr2, Hqr.
    destruct (PrimFloat.ltb bs threshold) eqn:Hlt.
    + now rewrite (ltb_not_leb _ _ Hlt).
    + now rewrite (not_ltb_leb bs threshold Hnum eq_refl Hlt).
  - intros req w data Hvalid Hai Hd1 Hdb Hlt.
    rewrite (query_run req w data Hvalid Hai Hd1). simpl.
    destruct (DB w) as [|row0 rows]; [reflexivity|].
    destruct (best_of (first_or_self data) (row0 :: rows)) as [[row|] bs];
      simpl in *; [now rewrite Hlt|reflexivity].
Qed.

Lemma accepted_iff_threshold_reached_witness :
  (query (mkQueryRequest "so long") Fixture.doc1_world).1
  = Return (Json (MatchBody "doc-1" "hello world" "<svg>hello world</svg>"
                            threshold "2024-01-01 00:00:00") 200) /\
  (query (mkQueryRequest "hello world") Fixture.doc2_world).1 = Return NotFound.
Proof.
  split.
  - exact (proj1 accepted_iff_threshold_reached
             (mkQueryRequest "so long") Fixture.doc1_world [[3; 4; 0; 0]]
             Fixture.doc1 threshold "<svg>hello world</svg>"
             eq_refl eq_refl eq_refl eq_refl eq_refl eq_refl).
  - apply (proj2 accepted_iff_threshold_reached
             (mkQueryRequest "hello world") Fixture.doc2_world [[1; 0; 0; 0]]);
      try reflexivity; discriminate.
Defined.

(** The best score in the second fixture is [0.4]. *)
Example doc2_scores_two_fifths :
  best_of [1; 0; 0; 0] (DB Fixture.doc2_world)
  = (Some Fixture.doc2, 0x1.999999999999ap-2).
Proof. reflexivity. Qed.

(** C6: retrieval over an empty collection answers "not found", status
    404, which is not the internal-error response. *)
Theorem empty_collection_not_found (req : QueryRequest) (w : World)
    (data : list (list float)) :
  validateRequest QuerySchema req = inl req ->
  AI w (prompt req) = Some data ->
  d1_up w = true ->
  DB w = [] ->
  (query req w).1 = Return NotFound /\
  NotFound <> internal_error /\
  status_of NotFound = 404%nat.
Proof.
  intros Hvalid Hai Hd1 Hdb.
  rewrite (query_run req w data Hvalid Hai Hd1). simpl. rewrite Hdb.
  repeat split. discriminate.
Qed.

Lemma empty_collection_not_found_witness :
  (query (mkQueryRequest "hello world") Fixture.empty_world).1 = Return NotFound /\
  NotFound <> internal_error /\
  status_of NotFound = 404%nat.
Proof.
  exact (empty_collection_not_found (mkQueryRequest "hello world")
           Fixture.empty_world [[1; 0; 0; 0]] eq_refl eq_refl eq_refl eq_refl).
Defined.

(** C7, as stated, fails: with the row present and the artifact gone, the
    response is the very response of a query that matches nothing. *)
Lemma missing_artifact_same_as_no_match :
  best_of [1; 0; 0; 0] (DB Fixture.orphan_world) = (Some Fixture.doc1, 1) /\
  QR_BUCKET Fixture.orphan_world !! "doc-1.svg" = None /\
  (query (mkQueryRequest "hello world") Fixture.orphan_world).1
  = (query (mkQueryRequest "hello world") Fixture.doc2_world).1.
Proof. repeat split. Qed.

(** C7, amended: when the accepted best match has its row but no artifact
    in the bucket, retrieval answers with the same "not found" response as a
    query without a match; the only thing that sets the case apart is the
    console line written just before. *)
Theorem missing_artifact_not_found (req : QueryRequest) (w : World)
    (data : list (list float)) (row : Row) (bestScore : float) :
  validateRequest QuerySchema req = inl req ->
  AI w (prompt req) = Some data ->
  d1_up w = true ->
  r2_up w = true ->
  best_of (first_or_self data) (DB w) = (Some row, bestScore) ->
  PrimFloat.leb threshold bestScore = true ->
  QR_BUCKET w !! (row_id row +:+ ".svg") = None ->
  (query req w).1 = Return NotFound /\
  last (trace (query req w).2) = Some (Console (QrNotFound (row_id row))).
Proof.
  intros Hvalid Hai Hd1 Hr2 Hbest Hle Hqr.
  rewrite (query_run req w data Hvalid Hai Hd1). simpl.
  rewrite Hbest. simpl.
  destruct (DB w) as [|row0 rows]; [discriminate Hbest|].
  rewrite (leb_not_ltb _ _ Hle), Hr2, Hqr. simpl. split; [reflexivity|].
  match goal with
  | |- last (?l ++ [?a; ?b]) = _ =>
      change (l ++ [a; b]) with (l ++ [a] ++ [b])
  end.
  rewrite app_assoc. apply last_snoc.
Qed.

Lemma missing_artifact_not_found_witness :
  (query (mkQueryRequest "hello world") Fixture.orphan_world).1 = Return NotFound /\
  last (trace (query (mkQueryRequest "hello world") Fixture.orphan_world).2)
  = Some (Console (QrNotFound "doc-1")).
Proof.
  exact (missing_artifact_not_found (mkQueryRequest "hello world")
           Fixture.orphan_world [[1; 0; 0; 0]] Fixture.doc1 1
           eq_refl eq_refl eq_refl eq_refl eq_refl eq_refl eq_refl).
Defined.

End RetrievalClaims.

(** ** Registration *)

Section RegistrationClaims.

Import Selector.

Lemma calls_app (t u : list Event) : calls (t ++ u) = calls t ++ calls u.
Proof. apply List.filter_app. Qed.

(** Scenario 1 of the specification: two registrations, then a query with
    the first text finds the first entry with score [1]. *)
Example register_then_retrieve :
  let w1 := (encode (mkEncodeRequest "hello world" "doc-1") Fixture.empty_world).2 in
  let w2 := (encode (mkEncodeRequest "goodbye" "doc-2") w1).2 in
  (query (mkQueryRequest "hello world") w2).1
  = Return (Json (MatchBody "doc-1" "hello world" "<svg>hello world</svg>" 1
                            "2024-01-01 00:00:00") 200).
Proof. reflexivity. Qed.

(** C8: on a valid request whose artifact renders and whose bucket write
    goes through, registration calls the renderer, the bucket, the embedding
    provider and the database in this order, the last only when the embedding
    arrived; and when the embedding or the insert fails, the artifact stays
    in the bucket, the table is unchanged and the response is the
    internal-server error. *)
Theorem registration_order_no_rollback (req : EncodeRequest) (w : World)
    (svg : string) :
  validateRequest EncodeSchema req = inl req ->
  QRCode_svg w (text req) = Some svg ->
  r2_up w = true ->
  let key := id req +:+ ".svg" in
  let w' := (encode req w).2 in
  (exists rest,
     calls (trace w')
     = calls (trace w)
       ++ [Render (text req); BucketPut key svg; AiRun (text req)] ++ rest /\
     match AI w (text req) with
     | Some data => rest = [DbInsert (id req) (text req) (first_or_self data)]
     | None => rest = []
     end) /\
  (AI w (text req) = None \/ d1_up w = false
   \/ primary_key_taken (id req) (DB w) = true ->
   (encode req w).1 = Return internal_error /\
   QR_BUCKET w' = <[key := svg]> (QR_BUCKET w) /\
   DB w' = DB w).
Proof.
  intros Hvalid Hsvg Hr2. simpl.
  rewrite (encode_run req w svg Hvalid Hsvg Hr2). simpl. split.
  - destruct (AI w (text req)) as [data|]; simpl.
    + exists [DbInsert (id req) (text req) (first_or_self data)].
      split; [|reflexivity].
      destruct (d1_up w && negb (primary_key_taken (id req) (DB w))); simpl;
        rewrite !calls_app; simpl; now rewrite <- ?app_assoc, ?app_nil_r.
    + exists []. split; [|reflexivity].
      rewrite !calls_app. simpl. now rewrite app_nil_r.
  - intros Hfail. destruct (AI w (text req)) as [data|]; simpl.
    + assert (Hins : d1_up w && negb (primary_key_taken (id req) (DB w)) = false).
      { destruct Hfail as [Hfail|[Hfail|Hfail]];
          [discriminate| |]; rewrite Hfail; simpl;
          [reflexivity|apply andb_false_r]. }
      rewrite Hins. simpl. repeat split.
    + repeat split.
Qed.

Lemma registration_order_no_rollback_witness :
  let req := mkEncodeRequest "unheard of" "doc-9" in
  let w' := (encode req Fixture.empty_world).2 in
  (encode req Fixture.empty_world).1 = Return internal_error /\
  QR_BUCKET w' = <["doc-9.svg" := "<svg>unheard of</svg>"]> ∅ /\
  DB w' = [].
Proof.
  apply (proj2 (registration_order_no_rollback
                  (mkEncodeRequest "unheard of" "doc-9") Fixture.empty_world
                  "<svg>unheard of</svg>" eq_refl eq_refl eq_refl)).
  left. reflexivity.
Defined.

(** C10: a valid registration under an id that the table already holds
    (the artifact renders, the bucket write goes through, the embedding
    arrives) first overwrites the artifact under that id with the rendering
    of the new text; the insert that follows is refused by the primary key,
    whatever the state of the database connection; the table, and with it
    the old row's text, embedding and creation time, is unchanged; the
    response is the internal-server error.  The bucket then holds the
    rendering of the new text next to a row that keeps the old one: two
    different texts as soon as the new text is not the stored one. *)
Theorem duplicate_id_overwrites_artifact_keeps_row (req : EncodeRequest)
    (w : World) (svg : string) (data : list (list float)) (old : Row) :
  validateRequest EncodeSchema req = inl req ->
  QRCode_svg w (text req) = Some svg ->
  r2_up w = true ->
  AI w (text req) = Some data ->
  old ∈ DB w ->
  row_id old = id req ->
  let key := id req +:+ ".svg" in
  let w' := (encode req w).2 in
  calls (trace w')
  = calls (trace w)
    ++ [Render (text req); BucketPut key svg; AiRun (text req);
        DbInsert (id req) (text req) (first_or_self data)] /\
  (forall w0, DB w0 = DB w ->
     (DB_insert (id req) (text req) (first_or_self data) w0).1 = Throw) /\
  (encode req w).1 = Return internal_error /\
  QR_BUCKET w' !! key = QRCode_svg w (text req) /\
  DB w' = DB w /\
  old ∈ DB w' /\
  (row_text old <> text req ->
   exists of_row of_artifact : string,
     row_text old = of_row /\
     QR_BUCKET w' !! key = QRCode_svg w of_artifact /\
     of_row <> of_artifact).
Proof.
  intros Hvalid Hsvg Hr2 Hai Hold Hid. simpl.
  assert (Hpk : primary_key_taken (id req) (DB w) = true).
  { unfold primary_key_taken. apply existsb_exists. exists old.
    split; [now apply list_elem_of_In|]. rewrite Hid. apply String.eqb_refl. }
  rewrite (encode_run req w svg Hvalid Hsvg Hr2). simpl.
  rewrite Hai, Hpk, andb_false_r. simpl. rewrite lookup_insert_eq.
  repeat split; auto.
  - rewrite !calls_app. simpl. now rewrite app_nil_r, <- app_assoc.
  - intros w0 Hw0. unfold DB_insert. simpl. rewrite Hw0, Hpk.
    now rewrite andb_false_r.
  - intros Hdiff. exists (row_text old), (text req). auto.
Qed.

Lemma duplicate_id_overwrites_artifact_keeps_row_witness :
  let req := mkEncodeRequest "goodbye" "doc-1" in
  let w' := (encode req Fixture.doc1_world).2 in
  calls (trace w')
  = [Render "goodbye"; BucketPut "doc-1.svg" "<svg>goodbye</svg>";
     AiRun "goodbye"; DbInsert "doc-1" "goodbye" [2; 4; 2; 1]] /\
  (encode req Fixture.doc1_world).1 = Return internal_error /\
  QR_BUCKET w' !! "doc-1.svg" = Some "<svg>goodbye</svg>" /\
  DB w' = [Fixture.doc1].
Proof.
  destruct (duplicate_id_overwrites_artifact_keeps_row
              (mkEncodeRequest "goodbye" "doc-1") Fixture.doc1_world
              "<svg>goodbye</svg>" [[2; 4; 2; 1]] Fixture.doc1
              eq_refl eq_refl eq_refl eq_refl
              (list_elem_of_here _ _) eq_refl)
    as (Hcalls & _ & Hresp & Hqr & Hdb & _).
  repeat split; assumption.
Defined.

End RegistrationClaims.

(** * Further properties of the handlers *)

(** ** Validation *)

Section ValidationFacts.

Lemma validateRequest_inl {T : Type} (schema : Schema T) (data data' : T) :
  validateRequest schema data = inl data' -> data' = data.
Proof.
  unfold validateRequest.
  destruct (List.filter _ schema); intros H; [now injection H|discriminate].
Qed.







End ValidationFacts.

(** ** Every path through [POST /encode] *)

Section EncodePaths.

Import Store.

Ltac run_handler :=
  unfold try_catch, mbind, Eff_bind, mret, Eff_ret, console_log, emit,
    generateQRCodeSVG, QR_BUCKET_put, QR_BUCKET_get, AI_run, DB_insert, DB_all,
    set_DB, set_QR_BUCKET, set_trace;
  simpl.

Lemma world_eta (w : World) :
  mkWorld (QR_BUCKET w) (DB w) (trace w) (AI w) (QRCode_svg w) (r2_up w)
          (d1_up w) (CURRENT_TIMESTAMP w) = w.
Proof. now destruct w. Qed.

Lemma encode_invalid (req : EncodeRequest) (w : World) (error : string) :
  validateRequest EncodeSchema req = inr error ->
  encode req w = (Return (Json (ErrorBody error) 400), w).
Proof. intros H. unfold encode. rewrite H. reflexivity. Qed.

Lemma encode_render_fails (req : EncodeRequest) (w : World) :
  validateRequest EncodeSchema req = inl req ->
  QRCode_svg w (text req) = None ->
  encode req w
  = (Return internal_error,
     set_trace w (trace w ++ [Render (text req); Console EncodeError])).
Proof.
  intros Hvalid Hsvg. unfold encode. rewrite Hvalid. run_handler.
  rewrite (valid_text_nonempty _ Hvalid), Hsvg. simpl.
  now rewrite <- app_assoc.
Qed.

Lemma encode_put_fails (req : EncodeRequest) (w : World) (svg : string) :
  validateRequest EncodeSchema req = inl req ->
  QRCode_svg w (text req) = Some svg ->
  r2_up w = false ->
  encode req w
  = (Return internal_error,
     set_trace w (trace w ++ [Render (text req);
                              BucketPut (artifact_key (id req)) svg;
                              Console EncodeError])).
Proof.
  intros Hvalid Hsvg Hr2. unfold encode. rewrite Hvalid. run_handler.
  rewrite (valid_text_nonempty _ Hvalid), Hsvg, Hr2. simpl.
  now repeat rewrite <- app_assoc.
Qed.

Lemma append_length (a s : string) :
  String.length (a +:+ s) = (String.length a + String.length s)%nat.
Proof. induction a as [|c a IH]; simpl; [reflexivity|now rewrite IH]. Qed.

Lemma artifact_key_inj (a b : string) :
  artifact_key a = artifact_key b -> a = b.
Proof.
  unfold artifact_key. revert b.
  induction a as [|c a IH]; intros [|c' b] H; simpl in H.
  - reflexivity.
  - apply (f_equal String.length) in H. simpl in H.
    rewrite append_length in H. simpl in H. lia.
  - apply (f_equal String.length) in H. simpl in H.
    rewrite append_length in H. simpl in H. lia.
  - injection H as -> H. f_equal. now apply IH.
Qed.

Lemma primary_key_free (id : string) (rows : list Row) :
  primary_key_taken id rows = false -> id ∉ map row_id rows.
Proof.
  unfold primary_key_taken. intros Hfree Hin.
  apply list_elem_of_fmap in Hin as (row & -> & Hrow).
  assert (existsb (fun r => String.eqb (row_id r) (row_id row)) rows = true)
    as Htaken; [|congruence].
  apply existsb_exists. exists row.
  split; [now apply list_elem_of_In|apply String.eqb_refl].
Qed.

(** What [/encode] can do to the two stores, over all its paths: nothing;
    or write the artifact and nothing else; or write the artifact and append
    one row under an id that was free. *)
Lemma encode_stores (req : EncodeRequest) (w : World) :
  let w' := (encode req w).2 in
  (QR_BUCKET w' = QR_BUCKET w /\ DB w' = DB w) \/
  exists svg,
    QRCode_svg w (text req) = Some svg /\
    QR_BUCKET w' = <[artifact_key (id req) := svg]> (QR_BUCKET w) /\
    (DB w' = DB w \/
     exists embedding,
       primary_key_taken (id req) (DB w) = false /\
       DB w' = DB w ++ [mkRow (id req) (text req) embedding
                              (CURRENT_TIMESTAMP w)]).
Proof.
  simpl. destruct (validateRequest EncodeSchema req) as [data|error] eqn:Hvalid.
  - pose proof (validateRequest_inl _ _ _ Hvalid) as ->.
    destruct (QRCode_svg w (text req)) as [svg|] eqn:Hsvg.
    + destruct (r2_up w) eqn:Hr2.
      * right. exists svg. split; [reflexivity|].
        rewrite (encode_run req w svg Hvalid Hsvg Hr2). simpl.
        destruct (AI w (text req)) as [data|]; simpl; [|auto].
        destruct (d1_up w); simpl; [|auto].
        destruct (primary_key_taken (id req) (DB w)) eqn:Hpk; simpl; [auto|].
        split; [reflexivity|]. right. eauto.
      * left. now rewrite (encode_put_fails req w svg Hvalid Hsvg Hr2).
    + left. now rewrite (encode_render_fails req w Hvalid Hsvg).
  - left. now rewrite (encode_invalid req w error Hvalid).
Qed.

End EncodePaths.

(** ** Every path through [POST /query] *)

Section QueryPaths.

Import Js FloatFacts Selector Store.

Ltac run_handler :=
  unfold try_catch, mbind, Eff_bind, mret, Eff_ret, console_log, emit,
    generateQRCodeSVG, QR_BUCKET_put, QR_BUCKET_get, AI_run, DB_insert, DB_all,
    set_DB, set_QR_BUCKET, set_trace;
  simpl.

Lemma query_invalid (req : QueryRequest) (w : World) (error : string) :
  validateRequest QuerySchema req = inr error ->
  query req w = (Return (Json (ErrorBody error) 400), w).
Proof. intros H. unfold query. rewrite H. reflexivity. Qed.

Lemma query_ai_fails (req : QueryRequest) (w : World) :
  validateRequest QuerySchema req = inl req ->
  AI w (prompt req) = None ->
  query req w
  = (Return internal_error,
     set_trace w (trace w ++ [Console (SearchingFor (prompt req));
                              AiRun (prompt req); Console QueryError])).
Proof.
  intros Hvalid Hai. unfold query. rewrite Hvalid. run_handler.
  rewrite Hai. simpl. now repeat rewrite <- app_assoc.
Qed.

Lemma query_db_fails (req : QueryRequest) (w : World)
    (data : list (list float)) :
  validateRequest QuerySchema req = inl req ->
  AI w (prompt req) = Some data ->
  d1_up w = false ->
  query req w
  = (Return internal_error,
     set_trace w (trace w ++ [Console (SearchingFor (prompt req));
                              AiRun (prompt req);
                              Console (QueryEmbeddingResponse data);
                              Console (QueryEmbeddingLength
                                         (length (first_or_self data)));
                              DbSelectAll; Console QueryError])).
Proof.
  intros Hvalid Hai Hd1. unfold query. rewrite Hvalid. run_handler.
  rewrite Hai. simpl. rewrite Hd1. simpl. now repeat rewrite <- app_assoc.
Qed.

(** Whatever the path, [/query] leaves a world that differs from the one it
    found in its trace only. *)
Lemma query_world (req : QueryRequest) (w : World) :
  exists t, (query req w).2 = set_trace w t.
Proof.
  destruct (validateRequest QuerySchema req) as [data|error] eqn:Hvalid.
  - pose proof (validateRequest_inl _ _ _ Hvalid) as ->.
    destruct (AI w (prompt req)) as [data|] eqn:Hai.
    + destruct (d1_up w) eqn:Hd1.
      * rewrite (query_run req w data Hvalid Hai Hd1). simpl.
        destruct (DB w) as [|row0 rows]; [eauto|].
        destruct (rejected _ _); [eauto|].
        destruct (best_of _ _).1 as [row|]; [|eauto].
        destruct (r2_up w); [|eauto].
        destruct (QR_BUCKET w !! _); eauto.
      * rewrite (query_db_fails req w data Hvalid Hai Hd1). eauto.
    + rewrite (query_ai_fails req w Hvalid Hai). eauto.
  - rewrite (query_invalid req w error Hvalid). exists (trace w).
    simpl. unfold set_trace. now rewrite world_eta.
Qed.

(** On numbers, [not (y <= x)] is [x < y]. *)
Lemma not_leb_ltb (x y : float) :
  is_number x = true -> is_number y = true ->
  PrimFloat.leb y x = false -> PrimFloat.ltb x y = true.
Proof.
  rewrite !is_number_spec. intros Hx Hy Hle.
  apply ltb_compare.
  destruct (SFcompare_total _ _ Hx Hy) as [H|H]; [exact H|].
  apply leb_compare in H. congruence.
Qed.

Lemma SFcompare_eq_sym (x y : spec_float) :
  SFcompare x y = Some Eq -> SFcompare y x = Some Eq.
Proof.
  destruct x as [sx|sx| |sx mx ex], y as [sy|sy| |sy my ey];
    try discriminate; try reflexivity;
    repeat match goal with s : bool |- _ => destruct s end;
    simpl; try discriminate; try reflexivity;
    intros H; injection H as H; f_equal; cmp_cases;
    rewrite ?Z.compare_refl, ?Pos.compare_refl; try reflexivity; try lia.
Qed.

(** Two numbers neither of which is below the other are [===]. *)
Lemma not_ltb_eqb (x y : float) :
  is_number x = true -> is_number y = true ->
  PrimFloat.ltb x y = false -> PrimFloat.ltb y x = false ->
  PrimFloat.eqb x y = true.
Proof.
  intros Hx Hy Hxy Hyx.
  rewrite FloatAxioms.eqb_spec. unfold SFeqb.
  apply is_number_spec in Hx, Hy.
  destruct (SFcompare_total _ _ Hx Hy) as [H|[H|H]].
  - apply ltb_compare in H. congruence.
  - apply ltb_compare in H. congruence.
  - now rewrite (SFcompare_eq_sym _ _ H).
Qed.

(** A row reaches the threshold only if it scores above [-Infinity]. *)
Lemma reaches_threshold_above_bottom (s : float) :
  PrimFloat.leb threshold s = true -> PrimFloat.ltb neg_infinity s = true.
Proof. intros H. eapply ltb_leb_trans; [|exact H]. reflexivity. Qed.

(** The gate turns the best match away exactly when no row reaches the
    threshold. *)
Lemma rejected_iff_none_reaches (queryVec : list float) (rows : list Row) :
  rejected (best_of queryVec rows).1 (best_of queryVec rows).2 = true <->
  forall row, row ∈ rows ->
              PrimFloat.leb threshold (score queryVec row) = false.
Proof.
  pose proof (best_of_first_maximum queryVec rows) as Hmax.
  pose proof (first_maximum_no_higher _ _ _ Hmax) as Hno.
  destruct (best_of queryVec rows) as [[best|] bs];
    unfold first_maximum in Hmax; simpl in *.
  - destruct Hmax as (i & Hi & Hbs & Hinf & _ & _). split.
    + intros Hlt row [j Hj]%list_elem_of_lookup.
      destruct (PrimFloat.leb threshold (score queryVec row)) eqn:E;
        [|reflexivity].
      rewrite <- (Hno j row Hj). symmetry. eapply ltb_leb_trans; eauto.
    + intros Hnone.
      apply not_leb_ltb; [now apply ltb_is_number in Hinf|reflexivity|].
      rewrite Hbs. apply Hnone. eapply list_elem_of_lookup_2; eauto.
  - destruct Hmax as [-> Hnone]. split; [|reflexivity].
    intros _ row [j Hj]%list_elem_of_lookup.
    destruct (PrimFloat.leb threshold (score queryVec row)) eqn:E;
      [|reflexivity].
    apply reaches_threshold_above_bottom in E.
    rewrite (Hnone j row Hj) in E. discriminate.
Qed.

End QueryPaths.

(** ** Registration, beyond its failure after the artifact write *)

Section RegistrationProperties.

Import Selector Store.

(** A body that validation refuses is answered with status 400 and the
    first message, by either handler, and nothing else happens: no call to a
    collaborator, no console line, both stores as they were. *)
Theorem refused_body_changes_nothing :
  (forall (req : EncodeRequest) (w : World) (error : string),
     validateRequest EncodeSchema req = inr error ->
     encode req w = (Return (Json (ErrorBody error) 400), w)) /\
  (forall (req : QueryRequest) (w : World) (error : string),
     validateRequest QuerySchema req = inr error ->
     query req w = (Return (Json (ErrorBody error) 400), w)).
Proof.
  split; intros req w error Hrefused.
  - unfold encode, try_catch. now rewrite Hrefused.
  - unfold query, try_catch. now rewrite Hrefused.
Qed.

Lemma refused_body_changes_nothing_witness :
  encode (mkEncodeRequest "hello" "no spaces please") Fixture.doc1_world
  = (Return (Json (ErrorBody
       "ID can only contain letters, numbers, hyphens, and underscores") 400),
     Fixture.doc1_world) /\
  query (mkQueryRequest "") Fixture.doc1_world
  = (Return (Json (ErrorBody "Prompt is required") 400), Fixture.doc1_world).
Proof.
  split.
  - apply (proj1 refused_body_changes_nothing). reflexivity.
  - apply (proj2 refused_body_changes_nothing). reflexivity.
Defined.

(** A registration that meets no failure answers 200, appends exactly one
    row (the id, the text, the first embedding of the response as JSON keeps
    it, the current timestamp) after the rows already there, and leaves the
    rendering of the text under the id's key; the id is then taken. *)
Theorem registration_success (req : EncodeRequest) (w : World) (svg : string)
    (data : list (list float)) :
  validateRequest EncodeSchema req = inl req ->
  QRCode_svg w (text req) = Some svg ->
  r2_up w = true ->
  AI w (text req) = Some data ->
  d1_up w = true ->
  primary_key_taken (id req) (DB w) = false ->
  let w' := (encode req w).2 in
  (encode req w).1 = Return (Json SuccessBody 200) /\
  DB w' = DB w ++ [mkRow (id req) (text req)
                         (map JSON_roundtrip (first_or_self data))
                         (CURRENT_TIMESTAMP w)] /\
  QR_BUCKET w' !! artifact_key (id req) = Some svg /\
  primary_key_taken (id req) (DB w') = true.
Proof.
  intros Hvalid Hsvg Hr2 Hai Hd1 Hpk. simpl.
  rewrite (encode_run req w svg Hvalid Hsvg Hr2). simpl.
  rewrite Hai, Hd1, Hpk. simpl. repeat split.
  - apply lookup_insert_eq.
  - unfold primary_key_taken. rewrite existsb_app. simpl.
    now rewrite String.eqb_refl, orb_true_r.
Qed.

Lemma registration_success_witness :
  let req := mkEncodeRequest "goodbye" "doc-2" in
  let w' := (encode req Fixture.doc1_world).2 in
  (encode req Fixture.doc1_world).1 = Return (Json SuccessBody 200) /\
  DB w' = [Fixture.doc1; Fixture.doc2] /\
  QR_BUCKET w' !! "doc-2.svg" = Some "<svg>goodbye</svg>" /\
  primary_key_taken "doc-2" (DB w') = true.
Proof.
  exact (registration_success (mkEncodeRequest "goodbye" "doc-2")
           Fixture.doc1_world "<svg>goodbye</svg>" [[2; 4; 2; 1]]
           eq_refl eq_refl eq_refl eq_refl eq_refl eq_refl).
Defined.

(** When the renderer throws or the bucket write fails, the response is the
    internal-server error, neither store has changed, and neither the
    embedding provider nor the database has been called. *)
Theorem registration_early_failure (req : EncodeRequest) (w : World) :
  validateRequest EncodeSchema req = inl req ->
  QRCode_svg w (text req) = None \/ r2_up w = false ->
  let w' := (encode req w).2 in
  (encode req w).1 = Return internal_error /\
  QR_BUCKET w' = QR_BUCKET w /\
  DB w' = DB w /\
  calls (trace w')
  = calls (trace w)
    ++ Render (text req)
       :: match QRCode_svg w (text req) with
          | Some svg => [BucketPut (artifact_key (id req)) svg]
          | None => []
          end.
Proof.
  intros Hvalid Hfail. simpl.
  destruct (QRCode_svg w (text req)) as [svg|] eqn:Hsvg.
  - destruct Hfail as [Hfail|Hr2]; [discriminate|].
    rewrite (encode_put_fails req w svg Hvalid Hsvg Hr2). simpl.
    repeat split. unfold calls. now rewrite List.filter_app.
  - rewrite (encode_render_fails req w Hvalid Hsvg). simpl.
    repeat split. unfold calls. now rewrite List.filter_app.
Qed.

Lemma registration_early_failure_witness :
  let w := mkWorld ∅ [] [] Fixture.provider Fixture.renderer false true "now" in
  let w' := (encode (mkEncodeRequest "hello world" "doc-1") w).2 in
  (encode (mkEncodeRequest "hello world" "doc-1") w).1 = Return internal_error /\
  QR_BUCKET w' = ∅ /\
  DB w' = [] /\
  calls (trace w')
  = [Render "hello world"; BucketPut "doc-1.svg" "<svg>hello world</svg>"].
Proof.
  apply (registration_early_failure (mkEncodeRequest "hello world" "doc-1")
           (mkWorld ∅ [] [] Fixture.provider Fixture.renderer false true "now")).
  - reflexivity.
  - right. reflexivity.
Defined.

(** [/encode] keeps the ids of the table pairwise distinct, whatever the
    request and whatever fails. *)
Lemma encode_ids_unique (req : EncodeRequest) (w : World) :
  ids_unique w -> ids_unique (encode req w).2.
Proof.
  unfold ids_unique. intros Huniq.
  destruct (encode_stores req w) as [[_ ->]|(svg & _ & _ & [->|Hrow])];
    try exact Huniq.
  destruct Hrow as (embedding & Hfree & ->).
  rewrite map_app. apply NoDup_app. repeat split; [exact Huniq| |].
  - intros x Hx [->|[]%elem_of_nil]%elem_of_cons.
    now apply primary_key_free in Hfree.
  - apply NoDup_singleton.
Qed.

(** [/encode] keeps every row paired with an artifact: the artifact is
    written before the row, and no path removes an object. *)
Lemma encode_artifacts_present (req : EncodeRequest) (w : World) :
  artifacts_present w -> artifacts_present (encode req w).2.
Proof.
  unfold artifacts_present. intros Hpresent row Hrow.
  destruct (encode_stores req w)
    as [[Hb Hdb]|(svg & _ & Hb & [Hdb|(embedding & _ & Hdb)])];
    rewrite Hb; rewrite Hdb in Hrow.
  - auto.
  - apply lookup_insert_is_Some'. right. auto.
  - apply lookup_insert_is_Some'.
    apply elem_of_app in Hrow as [Hrow|Hrow%list_elem_of_singleton];
      [right; auto|left; now subst].
Qed.

(** [/encode] only ever appends to the table, at most one row, and touches
    no artifact but the one of the id in the request. *)
Theorem encode_leaves_other_entries_alone (req : EncodeRequest) (w : World) :
  let w' := (encode req w).2 in
  (exists added, DB w' = DB w ++ added /\ (length added <= 1)%nat) /\
  (forall other : string,
     other <> id req ->
     QR_BUCKET w' !! artifact_key other = QR_BUCKET w !! artifact_key other).
Proof.
  simpl.
  destruct (encode_stores req w)
    as [[Hb Hdb]|(svg & _ & Hb & [Hdb|(embedding & _ & Hdb)])];
    rewrite Hb, Hdb; split;
    try (exists []; rewrite app_nil_r; split; [reflexivity|simpl; lia]);
    try (eexists [_]; split; [reflexivity|simpl; lia]);
    intros other Hother; try reflexivity;
    apply lookup_insert_ne; intros E; apply artifact_key_inj in E; congruence.
Qed.

Lemma encode_leaves_other_entries_alone_witness :
  QR_BUCKET (encode (mkEncodeRequest "goodbye" "doc-2") Fixture.doc1_world).2
    !! artifact_key "doc-1"
  = QR_BUCKET Fixture.doc1_world !! artifact_key "doc-1".
Proof.
  apply (proj2 (encode_leaves_other_entries_alone
                  (mkEncodeRequest "goodbye" "doc-2") Fixture.doc1_world)).
  discriminate.
Defined.

(** Sending a registration that succeeded a second time answers the
    internal-server error and changes neither store: the same artifact is
    written over itself and the insert is refused. *)
Theorem repeated_registration (req : EncodeRequest) (w : World) :
  (encode req w).1 = Return (Json SuccessBody 200) ->
  let w1 := (encode req w).2 in
  let w2 := (encode req w1).2 in
  (encode req w1).1 = Return internal_error /\
  QR_BUCKET w2 = QR_BUCKET w1 /\
  DB w2 = DB w1.
Proof.
  simpl. intros Hok.
  destruct (validateRequest EncodeSchema req) as [data|error] eqn:Hvalid;
    [|rewrite (encode_invalid req w error Hvalid) in Hok; discriminate].
  pose proof (validateRequest_inl _ _ _ Hvalid) as ->.
  destruct (QRCode_svg w (text req)) as [svg|] eqn:Hsvg;
    [|rewrite (encode_render_fails req w Hvalid Hsvg) in Hok; discriminate].
  destruct (r2_up w) eqn:Hr2;
    [|rewrite (encode_put_fails req w svg Hvalid Hsvg Hr2) in Hok;
      discriminate].
  rewrite (encode_run req w svg Hvalid Hsvg Hr2) in Hok |- *. simpl in *.
  destruct (AI w (text req)) as [data|] eqn:Hai; [|discriminate].
  destruct (d1_up w && negb (primary_key_taken (id req) (DB w))) eqn:Hins;
    [|discriminate].
  match goal with
  | |- context [encode req ?w1] =>
      rewrite (encode_run req w1 svg Hvalid Hsvg Hr2)
  end.
  simpl. rewrite Hai. simpl.
  assert (Htaken : primary_key_taken (id req)
                     (DB w ++ [mkRow (id req) (text req)
                                     (map JSON_roundtrip (first_or_self data))
                                     (CURRENT_TIMESTAMP w)]) = true).
  { unfold primary_key_taken. rewrite existsb_app. simpl.
    now rewrite String.eqb_refl, orb_true_r. }
  rewrite Htaken, andb_false_r. simpl.
  repeat split. apply insert_insert_eq.
Qed.

Lemma repeated_registration_witness :
  let req := mkEncodeRequest "hello world" "doc-1" in
  let w1 := (encode req Fixture.empty_world).2 in
  let w2 := (encode req w1).2 in
  (encode req w1).1 = Return internal_error /\
  QR_BUCKET w2 = QR_BUCKET w1 /\
  DB w2 = DB w1.
Proof.
  exact (repeated_registration (mkEncodeRequest "hello world" "doc-1")
           Fixture.empty_world eq_refl).
Defined.

End RegistrationProperties.

(** ** Retrieval, beyond the threshold and the missing artifact *)

Section RetrievalProperties.

Import Js FloatFacts Selector Store.

(** [/query] reads: whatever the request and whatever fails, the bucket
    and the table are afterwards what they were before. *)
Theorem query_is_read_only (req : QueryRequest) (w : World) :
  QR_BUCKET (query req w).2 = QR_BUCKET w /\ DB (query req w).2 = DB w.
Proof.
  destruct (query_world req w) as [t ->]. split; reflexivity.
Qed.



(** A failing collaborator makes [/query] answer the internal-server
    error, and stops it there: when the embedding call rejects, the database
    is never read; when the database read fails, the bucket is never read;
    when the bucket read for an accepted match fails, the error replaces the
    match. *)
Theorem query_failures_are_internal_errors (req : QueryRequest) (w : World) :
  validateRequest QuerySchema req = inl req ->
  (AI w (prompt req) = None ->
   (query req w).1 = Return internal_error /\
   calls (trace (query req w).2) = calls (trace w) ++ [AiRun (prompt req)]) /\
  (forall data, AI w (prompt req) = Some data -> d1_up w = false ->
   (query req w).1 = Return internal_error /\
   calls (trace (query req w).2)
   = calls (trace w) ++ [AiRun (prompt req); DbSelectAll]) /\
  (forall data row bestScore,
     AI w (prompt req) = Some data -> d1_up w = true ->
     best_of (first_or_self data) (DB w) = (Some row, bestScore) ->
     PrimFloat.leb threshold bestScore = true ->
     r2_up w = false ->
     (query req w).1 = Return internal_error).
Proof.
  intros Hvalid. split; [|split].
  - intros Hai. rewrite (query_ai_fails req w Hvalid Hai). simpl.
    split; [reflexivity|]. unfold calls. now rewrite List.filter_app.
  - intros data Hai Hd1. rewrite (query_db_fails req w data Hvalid Hai Hd1).
    simpl. split; [reflexivity|]. unfold calls. now rewrite List.filter_app.
  - intros data row bs Hai Hd1 Hbest Hle Hr2.
    rewrite (query_run req w data Hvalid Hai Hd1). simpl.
    rewrite Hbest. simpl.
    destruct (DB w) as [|row0 rows]; [discriminate Hbest|].
    now rewrite (leb_not_ltb _ _ Hle), Hr2.
Qed.

Lemma query_failures_are_internal_errors_witness :
  (query (mkQueryRequest "unheard of") Fixture.doc1_world).1
  = Return internal_error /\
  calls (trace (query (mkQueryRequest "unheard of") Fixture.doc1_world).2)
  = [AiRun "unheard of"].
Proof.
  apply (proj1 (query_failures_are_internal_errors
                  (mkQueryRequest "unheard of") Fixture.doc1_world eq_refl)).
  reflexivity.
Defined.

(** When every row has its artifact and the collaborators answer, "not
    found" means what it says: [/query] answers 404 exactly when no stored
    row scores at least [0.6] against the query. *)
Theorem not_found_means_no_row_reaches_threshold (req : QueryRequest)
    (w : World) (data : list (list float)) :
  artifacts_present w ->
  validateRequest QuerySchema req = inl req ->
  AI w (prompt req) = Some data ->
  d1_up w = true ->
  r2_up w = true ->
  (query req w).1 = Return NotFound <->
  forall row, row ∈ DB w ->
    PrimFloat.leb threshold
      (cosineSimilarity (first_or_self data) (row_embedding row)) = false.
Proof.
  intros Hpresent Hvalid Hai Hd1 Hr2.
  rewrite <- (rejected_iff_none_reaches (first_or_self data) (DB w)).
  rewrite (query_run req w data Hvalid Hai Hd1). simpl.
  pose proof (best_of_first_maximum (first_or_self data) (DB w)) as Hmax.
  destruct (DB w) as [|row0 rows] eqn:Hdb; [split; reflexivity|].
  destruct (best_of (first_or_self data) (row0 :: rows)) as [bm bs].
  simpl in *.
  destruct (rejected bm bs) eqn:Hrej; [split; reflexivity|].
  destruct bm as [row|]; [|discriminate Hrej].
  rewrite Hr2.
  unfold first_maximum in Hmax. simpl in Hmax.
  destruct Hmax as (i & Hi & _).
  destruct (Hpresent row) as [body Hbody].
  { rewrite Hdb. eapply list_elem_of_lookup_2; eauto. }
  unfold artifact_key in Hbody. rewrite Hbody. split; discriminate.
Qed.

Lemma not_found_means_no_row_reaches_threshold_witness :
  (query (mkQueryRequest "hello world") Fixture.doc2_world).1 = Return NotFound <->
  forall row, row ∈ DB Fixture.doc2_world ->
    PrimFloat.leb threshold
      (cosineSimilarity (first_or_self [[1; 0; 0; 0]]) (row_embedding row)) = false.
Proof.
  apply (not_found_means_no_row_reaches_threshold
           (mkQueryRequest "hello world") Fixture.doc2_world [[1; 0; 0; 0]]);
    try reflexivity.
  intros row ->%list_elem_of_singleton. now exists "<svg>goodbye</svg>".
Defined.

End RetrievalProperties.

(** ** The comparator and the loop, beyond the claims *)

Section ScoringProperties.

Import Js FloatFacts Cosine Selector.

Lemma sum_squares_nan (v : list float) (acc : float) :
  nan ∈ v -> fold_left (fun s x => s + x * x) v acc = nan.
Proof.
  revert acc. induction v as [|x v IH]; intros acc Hin.
  - now apply elem_of_nil in Hin.
  - simpl. apply elem_of_cons in Hin as [<-|Hin]; [|now apply IH].
    rewrite mul_nan_r, add_nan_r. clear IH.
    induction v as [|y v IH]; simpl; [reflexivity|now rewrite add_nan_l].
Qed.

Lemma div_nan_r (x : float) : x / nan = nan.
Proof.
  apply Prim2SF_inj. rewrite div_spec, Prim2SF_nan. unfold SF64div.
  now destruct (Prim2SF x).
Qed.

(** One NaN entry, in either vector and whatever the lengths, makes the
    score NaN: the magnitude of that vector is NaN, and so is the
    quotient. *)
Theorem nan_entry_makes_score_nan (a b : list float) :
  nan ∈ a \/ nan ∈ b -> cosineSimilarity a b = nan.
Proof.
  intros Hin. unfold cosineSimilarity. rewrite !magnitude_norm. unfold norm.
  destruct Hin as [Hin|Hin]; rewrite (sum_squares_nan _ _ Hin).
  - change (sqrt nan) with nan. rewrite (mul_comm nan), mul_nan_r.
    apply div_nan_r.
  - change (sqrt nan) with nan. rewrite mul_nan_r. apply div_nan_r.
Qed.

Lemma nan_entry_makes_score_nan_witness :
  cosineSimilarity [1; nan; 3] [4; 5; 6] = nan.
Proof.
  apply nan_entry_makes_score_nan. left.
  apply elem_of_cons. right. apply elem_of_cons. now left.
Defined.

(** The order in which the table lists its rows decides ties only: for two
    listings of the same rows, the loop finds a best match in both or in
    neither, and the two best scores are [===]. *)
Theorem best_score_independent_of_order (queryVec : list float)
    (rows rows' : list Row) :
  rows ≡ₚ rows' ->
  (is_Some (best_of queryVec rows).1 <-> is_Some (best_of queryVec rows').1) /\
  PrimFloat.eqb (best_of queryVec rows).2 (best_of queryVec rows').2 = true.
Proof.
  intros Hperm.
  pose proof (best_of_first_maximum queryVec rows) as H1.
  pose proof (best_of_first_maximum queryVec rows') as H2.
  pose proof (first_maximum_no_higher _ _ _ H1) as Hno1.
  pose proof (first_maximum_no_higher _ _ _ H2) as Hno2.
  destruct (best_of queryVec rows) as [[r1|] s1],
           (best_of queryVec rows') as [[r2|] s2];
    unfold first_maximum in H1, H2; simpl in *.
  - destruct H1 as (i1 & Hi1 & -> & Hinf1 & _).
    destruct H2 as (i2 & Hi2 & -> & Hinf2 & _).
    split; [split; eauto|].
    apply list_elem_of_lookup_2 in Hi1, Hi2.
    rewrite Hperm in Hi1. rewrite <- Hperm in Hi2.
    apply list_elem_of_lookup_1 in Hi1 as [j1 Hj1], Hi2 as [j2 Hj2].
    apply not_ltb_eqb.
    + now apply ltb_is_number in Hinf1.
    + now apply ltb_is_number in Hinf2.
    + exact (Hno1 j2 r2 Hj2).
    + exact (Hno2 j1 r1 Hj1).
  - exfalso. destruct H1 as (i1 & Hi1 & -> & Hinf1 & _).
    destruct H2 as [-> Hnone].
    apply list_elem_of_lookup_2 in Hi1. rewrite Hperm in Hi1.
    apply list_elem_of_lookup_1 in Hi1 as [j1 Hj1].
    rewrite (Hnone j1 r1 Hj1) in Hinf1. discriminate.
  - exfalso. destruct H2 as (i2 & Hi2 & -> & Hinf2 & _).
    destruct H1 as [-> Hnone].
    apply list_elem_of_lookup_2 in Hi2. rewrite <- Hperm in Hi2.
    apply list_elem_of_lookup_1 in Hi2 as [j2 Hj2].
    rewrite (Hnone j2 r2 Hj2) in Hinf2. discriminate.
  - destruct H1 as [-> _], H2 as [-> _]. split; [tauto|reflexivity].
Qed.

Lemma best_score_independent_of_order_witness :
  (is_Some (best_of [1; 0; 0; 0] [Fixture.doc1; Fixture.doc2]).1 <->
   is_Some (best_of [1; 0; 0; 0] [Fixture.doc2; Fixture.doc1]).1) /\
  PrimFloat.eqb (best_of [1; 0; 0; 0] [Fixture.doc1; Fixture.doc2]).2
                (best_of [1; 0; 0; 0] [Fixture.doc2; Fixture.doc1]).2 = true.
Proof.
  apply best_score_independent_of_order. apply perm_swap.
Defined.

(** The winner itself does depend on the order when two rows tie. *)
Example tie_follows_the_listing :
  (best_of [1; 0; 0; 0] [Fixture.doc1; Fixture.twin]).1 = Some Fixture.doc1 /\
  (best_of [1; 0; 0; 0] [Fixture.twin; Fixture.doc1]).1 = Some Fixture.twin.
Proof. split; reflexivity. Qed.

End ScoringProperties.

(** ** Runs of requests *)

Section RunProperties.

Import Selector Store.

(** Neither handler lets an exception escape: every request gets a
    response, with status 200, 400 or 500 from [/encode] and 200, 400, 404
    or 500 from [/query]. *)
Theorem handlers_always_answer :
  (forall (req : EncodeRequest) (w : World),
     exists r, (encode req w).1 = Return r /\
               (status_of r = 200 \/ status_of r = 400 \/ status_of r = 500)%nat) /\
  (forall (req : QueryRequest) (w : World),
     exists r, (query req w).1 = Return r /\
               (status_of r = 200 \/ status_of r = 400 \/ status_of r = 404
                \/ status_of r = 500)%nat).
Proof.
  split; intros req w.
  - destruct (validateRequest EncodeSchema req) as [d|error] eqn:Hvalid;
      [|rewrite (encode_invalid req w error Hvalid); eexists; simpl; eauto].
    pose proof (validateRequest_inl _ _ _ Hvalid) as ->.
    destruct (QRCode_svg w (text req)) as [svg|] eqn:Hsvg;
      [|rewrite (encode_render_fails req w Hvalid Hsvg); eexists; simpl; eauto].
    destruct (r2_up w) eqn:Hr2;
      [|rewrite (encode_put_fails req w svg Hvalid Hsvg Hr2);
        eexists; simpl; eauto].
    rewrite (encode_run req w svg Hvalid Hsvg Hr2). simpl.
    destruct (AI w (text req)); [|eexists; simpl; eauto].
    destruct (d1_up w && _); eexists; simpl; eauto.
  - destruct (validateRequest QuerySchema req) as [d|error] eqn:Hvalid;
      [|rewrite (query_invalid req w error Hvalid); eexists; simpl; eauto].
    pose proof (validateRequest_inl _ _ _ Hvalid) as ->.
    destruct (AI w (prompt req)) as [data|] eqn:Hai;
      [|rewrite (query_ai_fails req w Hvalid Hai); eexists; simpl; eauto 6].
    destruct (d1_up w) eqn:Hd1;
      [|rewrite (query_db_fails req w data Hvalid Hai Hd1);
        eexists; simpl; eauto 6].
    rewrite (query_run req w data Hvalid Hai Hd1). simpl.
    destruct (DB w); [eexists; simpl; eauto 6|].
    destruct (rejected _ _); [eexists; simpl; eauto 6|].
    destruct (best_of _ _).1; [|eexists; simpl; eauto 6].
    destruct (r2_up w); [|eexists; simpl; eauto 6].
    destruct (QR_BUCKET w !! _); eexists; simpl; eauto 6.
Qed.

(** Over any run of requests, served one after the other, the ids of the
    table stay pairwise distinct if they were so at the start (as they are
    in an empty table): [/encode] appends a row only under an id that the
    primary key finds free, and [/query] appends nothing. *)
Theorem serve_keeps_ids_unique (requests : list Request) (w : World) :
  ids_unique w -> ids_unique (serve requests w).
Proof.
  revert w. induction requests as [|r rest IH]; intros w Huniq; [exact Huniq|].
  simpl. apply IH. destruct r as [req|req]; simpl.
  - now apply encode_ids_unique.
  - destruct (query_world req w) as [t ->]. exact Huniq.
Qed.

Lemma serve_keeps_ids_unique_witness :
  ids_unique
    (serve [PostEncode (mkEncodeRequest "hello world" "doc-1");
            PostQuery (mkQueryRequest "hello world");
            PostEncode (mkEncodeRequest "goodbye" "doc-1");
            PostEncode (mkEncodeRequest "goodbye" "doc-2")]
           Fixture.empty_world).
Proof. apply serve_keeps_ids_unique. apply NoDup_nil_2. Defined.

(** Over any run of requests, every row keeps an artifact under its key if
    every row had one at the start: [/encode] writes the artifact before the
    row, and no path of either handler removes an object.  So the "row
    without artifact" case of [/query] is never reached through the
    handlers alone. *)
Theorem serve_keeps_artifacts_present (requests : list Request) (w : World) :
  artifacts_present w -> artifacts_present (serve requests w).
Proof.
  revert w. induction requests as [|r rest IH]; intros w Hpresent;
    [exact Hpresent|].
  simpl. apply IH. destruct r as [req|req]; simpl.
  - now apply encode_artifacts_present.
  - destruct (query_world req w) as [t ->]. exact Hpresent.
Qed.

Lemma serve_keeps_artifacts_present_witness :
  artifacts_present
    (serve [PostEncode (mkEncodeRequest "hello world" "doc-1");
            PostEncode (mkEncodeRequest "lost for words" "doc-3");
            PostEncode (mkEncodeRequest "goodbye" "doc-1")]
           Fixture.empty_world).
Proof.
  apply serve_keeps_artifacts_present.
  intros row Hrow. now apply elem_of_nil in Hrow.
Defined.

(** What such a run leaves behind: a second registration under a taken id
    has changed the artifact but not the row. *)
Example serve_example :
  let w := serve [PostEncode (mkEncodeRequest "hello world" "doc-1");
                  PostEncode (mkEncodeRequest "goodbye" "doc-1")]
                 Fixture.empty_world in
  map row_text (DB w) = ["hello world"] /\
  QR_BUCKET w !! artifact_key "doc-1" = Some "<svg>goodbye</svg>".
Proof. split; reflexivity. Qed.

End RunProperties.

(** ** Empty inputs *)

Section EmptyInputs.

Import Js FloatFacts Cosine Selector Store.

(** A query embedding made of zeros only, or an empty one (as when the
    provider answers with an empty [data]), matches nothing: once the table
    has been read, [/query] answers 404 whatever the table holds. *)
Theorem zero_query_embedding_never_matches (req : QueryRequest) (w : World)
    (data : list (list float)) :
  validateRequest QuerySchema req = inl req ->
  AI w (prompt req) = Some data ->
  zero_vector (first_or_self data) ->
  d1_up w = true ->
  (query req w).1 = Return NotFound.
Proof.
  intros Hvalid Hai Hzero Hd1.
  rewrite (query_run req w data Hvalid Hai Hd1). simpl.
  destruct (DB w) as [|row0 rows]; [reflexivity|].
  assert (Hrej : rejected (best_of (first_or_self data) (row0 :: rows)).1
                          (best_of (first_or_self data) (row0 :: rows)).2
                 = true).
  { apply rejected_iff_none_reaches. intros row _. unfold score.
    now rewrite (cosineSimilarity_zero_l _ _ Hzero). }
  now rewrite Hrej.
Qed.

Lemma zero_query_embedding_never_matches_witness :
  (query (mkQueryRequest "nothing") Fixture.doc1_world).1 = Return NotFound /\
  (query (mkQueryRequest "empty")
         (mkWorld ∅ [Fixture.doc1] [] (fun _ => Some []) Fixture.renderer
                  true true "now")).1 = Return NotFound.
Proof.
  split.
  - apply (zero_query_embedding_never_matches (mkQueryRequest "nothing")
             Fixture.doc1_world [[0; 0; 0; 0]]); try reflexivity.
    repeat constructor.
  - apply (zero_query_embedding_never_matches (mkQueryRequest "empty")
             (mkWorld ∅ [Fixture.doc1] [] (fun _ => Some []) Fixture.renderer
                      true true "now") []); try reflexivity.
    constructor.
Defined.

Ltac in_trace H :=
  simpl in H;
  repeat (rewrite elem_of_app in H || rewrite elem_of_cons in H
          || rewrite elem_of_nil in H);
  repeat match type of H with
  | _ \/ _ => destruct H as [H|H]
  end;
  try contradiction; try discriminate; auto.

(** [generateQRCodeSVG] renders a fixed URL in place of an empty text, but
    [/encode] never gets there: whatever it asks the renderer for is the
    text of the request, and that text is not empty. *)
Theorem encode_renders_request_text :
  (forall w : World,
     (generateQRCodeSVG "" w).1
     = match QRCode_svg w "https://workers.dev" with
       | Some svg => Return svg
       | None => Throw
       end) /\
  (forall (req : EncodeRequest) (w : World) (content : string),
     Render content ∈ trace (encode req w).2 ->
     Render content ∈ trace w \/ (content = text req /\ content <> "")).
Proof.
  split.
  - intros w. unfold generateQRCodeSVG. simpl.
    now destruct (QRCode_svg w "https://workers.dev").
  - intros req w content Hin.
    destruct (validateRequest EncodeSchema req) as [d|error] eqn:Hvalid;
      [|rewrite (encode_invalid req w error Hvalid) in Hin; auto].
    pose proof (validateRequest_inl _ _ _ Hvalid) as ->.
    assert (Hnonempty : text req <> "").
    { intros E. pose proof (valid_text_nonempty _ Hvalid) as Hne.
      rewrite E in Hne. discriminate. }
    assert (Hmine : Render content = Render (text req) ->
                    Render content ∈ trace w
                    \/ (content = text req /\ content <> "")).
    { intros E. injection E as ->. auto. }
    destruct (QRCode_svg w (text req)) as [svg|] eqn:Hsvg;
      [|rewrite (encode_render_fails req w Hvalid Hsvg) in Hin; in_trace Hin].
    destruct (r2_up w) eqn:Hr2;
      [|rewrite (encode_put_fails req w svg Hvalid Hsvg Hr2) in Hin;
        in_trace Hin].
    rewrite (encode_run req w svg Hvalid Hsvg Hr2) in Hin. simpl in Hin.
    destruct (AI w (text req)) as [data|]; [|in_trace Hin].
    destruct (d1_up w && _); in_trace Hin.
Qed.

Lemma encode_renders_request_text_witness :
  Render "goodbye" ∈ trace Fixture.doc1_world \/
  ("goodbye" = "goodbye" /\ "goodbye" <> "").
Proof.
  apply (proj2 encode_renders_request_text
           (mkEncodeRequest "goodbye" "doc-2") Fixture.doc1_world "goodbye").
  vm_compute. apply elem_of_cons. now left.
Defined.

End EmptyInputs.
